(** * The storage backend layer of LXD (lxd/storage/backend_lxd.go)

    A shallow embedding of the [lxdBackend] operations that coordinate the
    cluster database, the storage driver and the instance host, together
    with the properties the specification states about them.

    The driver ([drivers.Driver]), the cluster database and the instance
    host are interfaces of the Go code; here they are type classes over an
    abstract external state [S].  A backend operation is a computation in
    a state-and-error monad that threads the external state, the
    process-wide set of unavailable pools, the list of interface calls
    made so far, and the revert chain of the function being run. *)

From Stdlib Require Import Ascii String.
From stdpp Require Import base gmap strings list.

Set Default Proof Using "Type".
Local Open Scope Z_scope.
Local Open Scope string_scope.
Local Open Scope list_scope.

(** ** Go errors *)

(** The error values the backend builds or inspects:
    [fmt.Errorf] without and with a wrapped cause ([%w]),
    [api.StatusErrorf], the sentinel errors of package [drivers], and the
    structured [drivers.ErrDeleteSnapshots]. *)
Inductive error : Type :=
| Errorf (msg : string)
| Wrapf (msg : string) (cause : error)
| StatusErrorf (status : Z) (msg : string)
| ErrCannotBeShrunk
| ErrNotSupported
| ErrDeleteSnapshots (snapshots : list string).

Definition StatusServiceUnavailable : Z := 503.
Definition StatusNotFound : Z := 404.

(** [errors.Is(err, drivers.ErrCannotBeShrunk)]: follows the [%w] chain. *)
Fixpoint is_ErrCannotBeShrunk (e : error) : bool :=
  match e with
  | ErrCannotBeShrunk => true
  | Wrapf _ c => is_ErrCannotBeShrunk c
  | _ => false
  end.

(** [errors.Is(err, drivers.ErrNotSupported)]. *)
Fixpoint is_ErrNotSupported (e : error) : bool :=
  match e with
  | ErrNotSupported => true
  | Wrapf _ c => is_ErrNotSupported c
  | _ => false
  end.

(** [api.StatusErrorCheck(err, status)]: a status error of that code
    anywhere in the [%w] chain. *)
Fixpoint StatusErrorCheck (e : error) (status : Z) : bool :=
  match e with
  | StatusErrorf s _ => bool_decide (s = status)
  | Wrapf _ c => StatusErrorCheck c status
  | _ => false
  end.

(** [response.IsNotFoundError]. *)
Definition IsNotFoundError (e : error) : bool := StatusErrorCheck e StatusNotFound.

(** The type assertion [err.(drivers.ErrDeleteSnapshots)]: it looks at the
    dynamic type of [err] itself and does not unwrap. *)
Definition as_ErrDeleteSnapshots (e : error) : option (list string) :=
  match e with
  | ErrDeleteSnapshots snaps => Some snaps
  | _ => None
  end.

(** The outcome of a Go call: a value, a returned error, or a run-time
    panic (index out of range, nil dereference). *)
Inductive result (A : Type) : Type :=
| Ok (a : A)
| Fail (e : error)
| Panic (msg : string).
Arguments Ok {A} a.
Arguments Fail {A} e.
Arguments Panic {A} msg.

(** The reply of an interface method or of a helper of another package:
    a value or an error ([nil] error is [inr]). *)
Definition reply (A : Type) : Type := error + A.

Definition is_Ok {A} (r : result A) : bool :=
  match r with Ok _ => true | _ => false end.

Definition is_Fail {A} (r : result A) : bool :=
  match r with Fail _ => true | _ => false end.

(** ** Data model *)

Inductive VolumeType : Type :=
| VolumeTypeContainer | VolumeTypeVM | VolumeTypeImage | VolumeTypeCustom.

Inductive ContentType : Type :=
| ContentTypeFS | ContentTypeBlock | ContentTypeISO.

Inductive InstanceType : Type :=
| InstanceTypeAny | InstanceTypeContainer | InstanceTypeVM.

#[global] Instance VolumeType_eq_dec : EqDecision VolumeType.
Proof. solve_decision. Defined.
#[global] Instance ContentType_eq_dec : EqDecision ContentType.
Proof. solve_decision. Defined.
#[global] Instance InstanceType_eq_dec : EqDecision InstanceType.
Proof. solve_decision. Defined.

(** A Go [map[string]string]; a missing key reads as the empty string. *)
Abbreviation Config := (gmap string string).

Definition cfg (m : Config) (k : string) : string := default "" (m !! k).

(** [drivers.Volume]. *)
Record Volume : Type := mkVolume {
  vol_pool : string;
  vol_type : VolumeType;
  vol_contentType : ContentType;
  vol_name : string;
  vol_config : Config;
  vol_poolConfig : Config;
  vol_hasSource : bool
}.

Definition vol_with_config (v : Volume) (c : Config) : Volume :=
  mkVolume (vol_pool v) (vol_type v) (vol_contentType v) (vol_name v) c
           (vol_poolConfig v) (vol_hasSource v).

(** [Volume.SetConfigSize] and [Volume.SetConfigStateSize]. *)
Definition SetConfigSize (v : Volume) (size : string) : Volume :=
  vol_with_config v (<["size" := size]> (vol_config v)).

Definition SetConfigStateSize (v : Volume) (size : string) : Volume :=
  vol_with_config v (<["size.state" := size]> (vol_config v)).

(** [Volume.SetHasSource]. *)
Definition SetHasSource (v : Volume) (h : bool) : Volume :=
  mkVolume (vol_pool v) (vol_type v) (vol_contentType v) (vol_name v)
           (vol_config v) (vol_poolConfig v) h.

(** [drivers.VolumeFiller]: the fingerprint and the size the filler
    recorded; the [Fill] closure is [b.imageFiller(fingerprint, op)]. *)
Record VolumeFiller : Type := mkFiller {
  filler_Fingerprint : string;
  filler_Size : Z
}.

(** [drivers.Info]: the capability descriptor of a driver. *)
Record Info : Type := mkInfo {
  OptimizedImages : bool;
  Remote : bool;
  MountedRoot : bool;
  VolumeTypes : list VolumeType;
  DefaultVMBlockFilesystemSize : string
}.

(** A storage volume record as [VolumeDBGet] returns it. *)
Record StorageVolume : Type := mkStorageVolume {
  sv_Name : string;
  sv_Description : string;
  sv_Config : Config;
  sv_ContentType : string
}.

(** What the backend reads of an [instance.Instance] value. *)
Record Instance : Type := mkInstance {
  inst_Type : InstanceType;
  inst_Project : string;
  inst_Name : string;
  inst_IsSnapshot : bool;
  inst_ExpandedDevices : gmap string Config;
  inst_ExpandedConfig : Config
}.

(** [api.StoragePool] as held in [lxdBackend.db]. *)
Record StoragePool : Type := mkStoragePool {
  pool_Description : string;
  pool_Status : string;
  pool_Config : Config
}.

(** [lxdBackend]: the driver is the [Driver] instance in scope. *)
Record lxdBackend : Type := mkBackend {
  b_id : Z;
  b_db : StoragePool;
  b_name : string;
  b_nodes : gmap Z Z
}.

(** Modelled from the spec: the pool status names of package [api], which
    is outside this file's scope (the spec lists [pending], [created],
    [errored] and [unavailable]). *)
Definition StoragePoolStatusPending : string := "Pending".
Definition StoragePoolStatusUnvailable : string := "Unavailable".
Definition StoragePoolStatusUnknown : string := "Unknown".
Definition ProjectDefaultName : string := "default".

(** The parts of [migration.Info] (the index header) and of
    [migration.VolumeTargetArgs] that the backend reads; a Go pointer that
    may be nil is an [option]. *)
Record HeaderSnapshot : Type := mkHeaderSnapshot {
  hs_Name : string;
  hs_Description : string;
  hs_Config : Config;
  hs_ExpiresAt : option Z
}.

Record HeaderVolume : Type := mkHeaderVolume {
  hv_Description : string;
  hv_Config : Config
}.

Record BackupConfig : Type := mkBackupConfig {
  bc_Volume : option HeaderVolume;
  bc_VolumeSnapshots : list (option HeaderSnapshot)
}.

Record MigrationInfo : Type := mkMigrationInfo {
  mi_Config : option BackupConfig
}.

Inductive MigrationFSType : Type :=
| MigrationFSType_RSYNC | MigrationFSType_BTRFS | MigrationFSType_ZFS
| MigrationFSType_RBD | MigrationFSType_BLOCK_AND_RSYNC.

#[global] Instance MigrationFSType_eq_dec : EqDecision MigrationFSType.
Proof. solve_decision. Defined.

Record VolumeTargetArgs : Type := mkTargetArgs {
  args_IndexHeaderVersion : Z;
  args_Name : string;
  args_Description : string;
  args_Config : option Config;
  args_Snapshots : list string;
  args_FSType : MigrationFSType;
  args_Refresh : bool;
  args_VolumeSize : Z;
  args_ClusterMoveSourceName : string
}.

(** [drivers.VolumeCopy]: a volume with its ordered snapshot volumes. *)
Definition VolumeCopy : Type := Volume * list Volume.
Definition NewVolumeCopy (v : Volume) (snaps : list Volume) : VolumeCopy := (v, snaps).

(** ** Interface calls

    Every call the backend makes on the driver, the database or the host
    that can fail or change state is recorded, with its arguments and
    with the error it returned, in the order it is made. *)
Inductive Call : Type :=
(* drivers.Driver *)
| CMount
| CUnmount
| CHasVolume (vol : Volume)
| CFillVolumeConfig (vol : Volume)
| CCreateVolume (vol : Volume) (filler : option VolumeFiller)
| CCreateVolumeFromCopy (vol src : VolumeCopy) (allowInconsistent : bool)
| CCreateVolumeFromMigration (vol : VolumeCopy) (args : VolumeTargetArgs) (preFiller : VolumeFiller)
| CDeleteVolume (vol : Volume)
| CDeleteVolumeSnapshot (vol : Volume)
| CRenameVolume (vol : Volume) (newName : string)
| CSetVolumeQuota (vol : Volume) (size : string) (allowUnsafeResize : bool)
| CRestoreVolume (vol snapVol : Volume)
(* cluster database *)
| CVolumeDBGet (project name : string) (volType : VolumeType)
| CVolumeDBCreate (project name desc : string) (volType : VolumeType) (snapshot : bool)
                  (config : Config) (expiry : Z) (contentType : ContentType)
                  (removeUnknownKeys hasSource : bool)
| CVolumeDBDelete (project name : string) (volType : VolumeType)
| CVolumeDBSnapshotsGet (project name : string) (volType : VolumeType)
| CUpdateStoragePoolVolume (project name : string) (volDBType : Z) (poolID : Z)
                           (desc : string) (config : Config)
| CRenameStoragePoolVolume (project oldName newName : string) (volDBType : Z) (poolID : Z)
| CGetInstanceSnapshotsNames (project name : string)
| CGetImageFromAnyProject (fingerprint : string)
| CGetImage (fingerprint project : string)
(* instance host and operating system *)
| CMkdirAll (path : string)
| CRemove (path : string)
| CRemoveAll (path : string)
| CSymlink (target link : string)
| CSnapshots (inst : Instance)
| CDelete (inst : Instance) (force : bool)
| CDeferTemplateApply (inst : Instance) (trigger : string)
| CVolumeUsedByInstanceDevices (pool project : string) (vol : StorageVolume)
| CInstanceLoad (inst : Instance)
| CLock (name : string)
| CUnlock (name : string)
| CSendLifecycle (event project name : string)
| CConnReadAll
| CConnWrite (data : string)
| CConnClose.

(** A recorded call: the call and the error it returned ([None] for a
    nil error). *)
Definition Event : Type := Call * option error.

Definition outcome {A} (r : reply A) : option error :=
  match r with inl e => Some e | inr _ => None end.

(** Kinds of calls. *)
Definition is_CRestoreVolume (c : Call) : bool :=
  match c with CRestoreVolume _ _ => true | _ => false end.
Definition is_CCreateVolume (c : Call) : bool :=
  match c with CCreateVolume _ _ => true | _ => false end.
Definition is_CCreateVolumeFromCopy (c : Call) : bool :=
  match c with CCreateVolumeFromCopy _ _ _ => true | _ => false end.
Definition is_CDeleteVolume (c : Call) : bool :=
  match c with CDeleteVolume _ => true | _ => false end.
Definition is_CVolumeDBDelete (c : Call) : bool :=
  match c with CVolumeDBDelete _ _ _ => true | _ => false end.
Definition is_CDelete (c : Call) : bool :=
  match c with CDelete _ _ => true | _ => false end.
Definition is_CUpdateStoragePoolVolume (c : Call) : bool :=
  match c with CUpdateStoragePoolVolume _ _ _ _ _ _ => true | _ => false end.
Definition is_CRenameStoragePoolVolume (c : Call) : bool :=
  match c with CRenameStoragePoolVolume _ _ _ _ _ => true | _ => false end.

(** ** The interfaces *)

(** [drivers.Driver], as far as the backend operations below call it.
    [CreateVolume] returns the size its filler recorded
    ([volFiller.Size], 0 when none was recorded); [FillVolumeConfig]
    returns the volume with the config it filled in. *)
Class Driver (S : Type) : Type := {
  drv_Info : Info;
  drv_Mount : S → reply bool * S;
  drv_Unmount : S → reply bool * S;
  drv_HasVolume : Volume → S → reply bool * S;
  drv_FillVolumeConfig : Volume → S → reply Volume * S;
  drv_CreateVolume : Volume → option VolumeFiller → S → reply Z * S;
  drv_CreateVolumeFromCopy : VolumeCopy → VolumeCopy → bool → S → reply unit * S;
  drv_CreateVolumeFromMigration :
    VolumeCopy → VolumeTargetArgs → VolumeFiller → S → reply unit * S;
  drv_DeleteVolume : Volume → S → reply unit * S;
  drv_DeleteVolumeSnapshot : Volume → S → reply unit * S;
  drv_RenameVolume : Volume → string → S → reply unit * S;
  drv_SetVolumeQuota : Volume → string → bool → S → reply unit * S;
  drv_RestoreVolume : Volume → Volume → S → reply unit * S
}.

(** The cluster database, through [b.state.DB.Cluster] and the
    [VolumeDB*] helpers of package [storage].  [VolumeDBCreate] returns
    the config map as the call left it (it fills and strips keys in
    place); [GetImageFromAnyProject] returns the image's [Type]. *)
Class Cluster (S : Type) : Type := {
  db_GetNodeID : S → Z;
  db_VolumeDBGet : lxdBackend → string → string → VolumeType → S → reply StorageVolume * S;
  db_VolumeDBCreate :
    lxdBackend → string → string → string → VolumeType → bool → Config → Z →
    ContentType → bool → bool → S → reply Config * S;
  db_VolumeDBDelete : lxdBackend → string → string → VolumeType → S → reply unit * S;
  db_VolumeDBSnapshotsGet :
    lxdBackend → string → string → VolumeType → S → reply (list StorageVolume) * S;
  db_UpdateStoragePoolVolume :
    string → string → Z → Z → string → Config → S → reply unit * S;
  db_RenameStoragePoolVolume : string → string → string → Z → Z → S → reply unit * S;
  db_GetInstanceSnapshotsNames : string → string → S → reply (list string) * S;
  db_GetImageFromAnyProject : string → S → reply string * S;
  db_GetImage : string → string → S → reply unit * S
}.

(** The instance host, the filesystem, the lock registry, the event sink
    and the migration connection. *)
Class Host (S : Type) : Type := {
  os_IsDir : string → S → bool;
  os_PathExists : string → S → bool;
  os_MkdirAll : string → S → reply unit * S;
  os_Remove : string → S → reply unit * S;
  os_RemoveAll : string → S → reply unit * S;
  os_Symlink : string → string → S → reply unit * S;
  inst_IsRunning : Instance → S → bool;
  inst_Snapshots : Instance → S → reply (list Instance) * S;
  inst_Delete : Instance → bool → S → reply unit * S;
  inst_DeferTemplateApply : Instance → string → S → reply unit * S;
  host_VolumeUsedByInstanceDevices :
    string → string → StorageVolume → S → reply (list Instance) * S;
  host_InstanceLoad : Instance → S → reply Instance * S;
  locking_Lock : string → S → reply unit * S;
  locking_Unlock : string → S → S;
  events_SendLifecycle : string → string → string → S → S;
  conn_ReadAll : S → reply string * S;
  conn_Write : string → S → reply unit * S;
  conn_Close : S → reply unit * S
}.

(** Pure functions of packages [drivers], [project], [shared], [db] and
    [instancetype] that the backend calls and whose code is outside this
    file's scope. *)
Class Helpers : Type := {
  InstanceTypeToVolumeType : InstanceType → reply VolumeType;
  InstanceContentType : Instance → ContentType;
  VolumeTypeToDBType : VolumeType → reply Z;
  StoragePoolVolumeTypeImage : Z;
  VolumeContentTypeNameToContentType : string → reply Z;
  VolumeDBContentTypeToContentType : Z → reply ContentType;
  StoragePoolStateToAPIStatus : Z → string;
  project_Instance : string → string → string;
  project_StorageVolume : string → string → string;
  InstancePath : InstanceType → string → string → bool → string;
  GetPoolMountPath : string → string;
  GetVolumeMountPath : string → VolumeType → string → string;
  GetVolumeSnapshotDir : string → VolumeType → string → string;
  VarPath : list string → string;
  BaseDirectories : VolumeType → list string;
  filepath_Join : string → string → string;
  OperationLockName : string → string → VolumeType → string → string → string;
  GetRootDiskDevice : gmap string Config → reply (string * Config);
  IsVMBlock : Volume → bool;
  IsBlockBacked : Volume → bool;
  NewVMBlockFilesystemVolume : Volume → Volume;
  ConfigSize : Volume → string;
  ConfigSizeFromSource : Volume → Volume → reply string;
  MountPath : Volume → string;
  json_Unmarshal_Info : string → reply MigrationInfo;
  json_Marshal_InfoResponse : Z → bool → reply string;
  Sprintf_d : Z → string;
  os_IsExist : error → bool
}.

(** ** State, revert chain and the monad of backend operations *)

(** The state a backend operation runs in: the external state behind the
    interfaces, the package variable [unavailablePools], and the calls
    made so far with their outcomes (oldest first). *)
Record World (S : Type) : Type := mkWorld {
  ext : S;
  unavailablePools : gset string;
  calls : list Event
}.
Arguments mkWorld {S} ext unavailablePools calls.
Arguments ext {S} w.
Arguments unavailablePools {S} w.
Arguments calls {S} w.

(** Modelled from the spec: package [shared/revert], which is outside
    this file's scope.  A revert chain is a LIFO stack of compensating
    actions; [Fail] runs them newest first, [Success] is the marker that
    empties the chain so that the deferred [Fail] does nothing. *)
Definition Reverter (S : Type) : Type := list (World S → World S).

Definition revert_Fail {S} (rv : Reverter S) (w : World S) : World S :=
  foldl (λ w' hook, hook w') w rv.

(** A backend operation: from the revert chain of the running function
    and the state, to an outcome, the chain and the state. *)
Definition M (S A : Type) : Type := Reverter S → World S → result A * Reverter S * World S.

Definition ret {S A} (a : A) : M S A := λ rv w, (Ok a, rv, w).

Definition fail {S A} (e : error) : M S A := λ rv w, (Fail e, rv, w).

Definition panic {S A} (msg : string) : M S A := λ rv w, (Panic msg, rv, w).

Definition bind {S A B} (m : M S A) (k : A → M S B) : M S B := λ rv w,
  match m rv w with
  | (Ok a, rv', w') => k a rv' w'
  | (Fail e, rv', w') => (Fail e, rv', w')
  | (Panic msg, rv', w') => (Panic msg, rv', w')
  end.

Declare Scope go_scope.
Delimit Scope go_scope with go.
Notation "x <- m ;; k" := (bind m (λ x, k))
  (at level 100, m at next level, right associativity) : go_scope.
Notation "m ;; k" := (bind m (λ _, k))
  (at level 100, right associativity) : go_scope.
Local Open Scope go_scope.

(** [err := f(); if err != nil ...]: the error is inspected instead of
    being returned. *)
Definition try {S A} (m : M S A) : M S (error + A) := λ rv w,
  match m rv w with
  | (Ok a, rv', w') => (Ok (inr a), rv', w')
  | (Fail e, rv', w') => (Ok (inl e), rv', w')
  | (Panic msg, rv', w') => (Panic msg, rv', w')
  end.

(** An interface call: it is recorded and acts on the external state. *)
Definition of_reply {A} (r : reply A) : result A :=
  match r with inl e => Fail e | inr a => Ok a end.

Definition call {S A} (c : Call) (f : S → reply A * S) : M S A := λ rv w,
  (of_reply (f (ext w)).1, rv,
   mkWorld (f (ext w)).2 (unavailablePools w) (calls w ++ [(c, outcome (f (ext w)).1)])).

(** An interface call that cannot fail (the event sink, releasing a lock). *)
Definition call_ {S} (c : Call) (f : S → S) : M S unit :=
  call c (λ s, (inr tt, f s)).

(** Reading the external state (a path test, the running state). *)
Definition read {S A} (f : S → A) : M S A := λ rv w, (Ok (f (ext w)), rv, w).

Definition lift {S A} (r : reply A) : M S A := λ rv w, (of_reply r, rv, w).

(** [revert.Add], [revert.Success], and a function body under
    [revert := revert.New(); defer revert.Fail()]. *)
Definition revert_Add {S} (hook : World S → World S) : M S unit :=
  λ rv w, (Ok tt, hook :: rv, w).

Definition revert_Success {S} : M S unit := λ rv w, (Ok tt, [], w).

Definition with_revert {S A} (body : M S A) : M S A := λ rv w,
  match body [] w with
  | (r, rv', w') => (r, rv, revert_Fail rv' w')
  end.

(** [func() { _ = f(...) }]: a hook runs an operation and drops its
    outcome. *)
Definition hook {S A} (m : M S A) : World S → World S := λ w, (m [] w).2.

(** [defer f()] for a cleanup that is not a revert chain. *)
Definition with_defer {S A} (cleanup : World S → World S) (body : M S A) : M S A := λ rv w,
  match body rv w with
  | (r, rv', w') => (r, rv', cleanup w')
  end.

(** [for _, x := range xs { ... }] where the body may return an error. *)
Fixpoint forM_ {S A} (xs : list A) (f : A → M S unit) : M S unit :=
  match xs with
  | [] => ret tt
  | x :: xs' => f x ;; forM_ xs' f
  end.

Definition when {S} (c : bool) (m : M S unit) : M S unit := if c then m else ret tt.

(** Running an operation from a state, outside any function with a
    revert chain. *)
Definition run {S A} (m : M S A) (w : World S) : result A * World S :=
  match m [] w with
  | (r, _, w') => (r, w')
  end.

(** [unavailablePoolsMu.Lock(); unavailablePools[name] = struct{}{}] and
    [delete(unavailablePools, name)]. *)
Definition markUnavailable {S} (name : string) (w : World S) : World S :=
  mkWorld (ext w) ({[name]} ∪ unavailablePools w) (calls w).

Definition markAvailable {S} (name : string) (w : World S) : World S :=
  mkWorld (ext w) (unavailablePools w ∖ {[name]}) (calls w).

Definition modify {S} (f : World S → World S) : M S unit := λ rv w, (Ok tt, rv, f w).

Definition getWorld {S} : M S (World S) := λ rv w, (Ok w, rv, w).

(** Modelled from the spec: [storage.IsAvailable], outside this file's
    scope; a pool is available when its name is not in the process-wide
    set. *)
Definition IsAvailable {S} (poolName : string) (w : World S) : bool :=
  bool_decide (poolName ∉ unavailablePools w).

(** ** Pool status and mount (backend_lxd.go, lines 102-134 and 394-449) *)

Section Pool.
Context {S : Type} `{!Driver S, !Cluster S, !Host S, !Helpers}.
Implicit Types (b : lxdBackend) (w : World S).

Definition Status b : string := pool_Status (b_db b).

Definition LocalStatus b w : string :=
  if negb (IsAvailable (b_name b) w) then StoragePoolStatusUnvailable
  else match b_nodes b !! db_GetNodeID (ext w) with
       | None => StoragePoolStatusUnknown
       | Some state => StoragePoolStateToAPIStatus state
       end.

Definition isStatusReady b : M S unit :=
  if bool_decide (Status b = StoragePoolStatusPending)
  then fail (Errorf "Specified pool is not fully created")
  else
    w <- getWorld ;;
    if bool_decide (LocalStatus b w = StoragePoolStatusUnvailable)
    then fail (StatusErrorf StatusServiceUnavailable "Storage pool is unavailable on this server")
    else ret tt.

Definition Unmount b : M S bool := call CUnmount drv_Unmount.

Definition createStorageStructure b (path : string) : M S unit :=
  forM_ (VolumeTypes drv_Info) (λ volType,
    forM_ (BaseDirectories volType) (λ name,
      let path := filepath_Join path name in
      r <- try (call (CMkdirAll path) (os_MkdirAll path)) ;;
      match r with
      | inl err =>
          if negb (os_IsExist err)
          then fail (Wrapf "Failed to create directory" err)
          else ret tt
      | inr _ => ret tt
      end)).

Definition Mount b : M S bool :=
  with_revert (
    revert_Add (markUnavailable (b_name b)) ;;
    let path := GetPoolMountPath (b_name b) in
    isDir <- read (os_IsDir path) ;;
    when (negb isDir) (
      r <- try (call (CMkdirAll path) (os_MkdirAll path)) ;;
      match r with
      | inl err => fail (Wrapf "Failed to create storage pool directory" err)
      | inr _ => ret tt
      end) ;;
    ourMount <- call CMount drv_Mount ;;
    when ourMount (revert_Add (hook (Unmount b))) ;;
    createStorageStructure b path ;;
    revert_Success ;;
    modify (markAvailable (b_name b)) ;;
    ret ourMount).

End Pool.

(** ** Names of snapshots *)

(** Modelled from the spec: [api.GetParentAndSnapshotName],
    [shared.IsSnapshot] and [drivers.GetSnapshotVolumeName], outside this
    file's scope; a snapshot name is encoded as [parent/snap]. *)
Fixpoint splitDelimiter (s : string) : string * option string :=
  match s with
  | EmptyString => (EmptyString, None)
  | String c rest =>
      if Ascii.eqb c "/"%char then (EmptyString, Some rest)
      else (String c (splitDelimiter rest).1, (splitDelimiter rest).2)
  end.

Definition GetParentAndSnapshotName (name : string) : string * string * bool :=
  match splitDelimiter name with
  | (parent, Some snap) => (parent, snap, true)
  | (_, None) => (name, "", false)
  end.

Definition IsSnapshot (name : string) : bool := (GetParentAndSnapshotName name).2.

Definition GetSnapshotVolumeName (parentName snapshotName : string) : string :=
  parentName +:+ "/" +:+ snapshotName.

(** [shared.StringInSlice]. *)
Definition StringInSlice (key : string) (l : list string) : bool := bool_decide (key ∈ l).

(** Go slice indexing [l[i]]: a run-time panic outside [0, len(l)). *)
Definition index {S A} (l : list A) (i : Z) : M S A :=
  if bool_decide (0 ≤ i < Z.of_nat (length l))%Z
  then match l !! Z.to_nat i with
       | Some x => ret x
       | None => panic "index out of range"
       end
  else panic "index out of range".

(** ** Instance and image volumes *)

Section Instances.
Context {S : Type} `{!Driver S, !Cluster S, !Host S, !Helpers}.
Implicit Types (b : lxdBackend) (w : World S) (inst src : Instance) (vol : Volume).

(** Lines 234-237. *)
Definition GetVolume b (volType : VolumeType) (contentType : ContentType)
    (volName : string) (volConfig : Config) : Volume :=
  mkVolume (b_name b) volType contentType volName volConfig (pool_Config (b_db b)) false.

Definition VolumeDBGet b (project name : string) (volType : VolumeType) : M S StorageVolume :=
  call (CVolumeDBGet project name volType) (db_VolumeDBGet b project name volType).

Definition VolumeDBDelete b (project name : string) (volType : VolumeType) : M S unit :=
  call (CVolumeDBDelete project name volType) (db_VolumeDBDelete b project name volType).

Definition VolumeDBCreate b (project name desc : string) (volType : VolumeType)
    (snapshot : bool) (config : Config) (expiry : Z) (contentType : ContentType)
    (removeUnknownKeys hasSource : bool) : M S Config :=
  call (CVolumeDBCreate project name desc volType snapshot config expiry contentType
          removeUnknownKeys hasSource)
       (db_VolumeDBCreate b project name desc volType snapshot config expiry contentType
          removeUnknownKeys hasSource).

Definition UpdateStoragePoolVolume (project name : string) (volDBType poolID : Z)
    (desc : string) (config : Config) : M S unit :=
  call (CUpdateStoragePoolVolume project name volDBType poolID desc config)
       (db_UpdateStoragePoolVolume project name volDBType poolID desc config).


(** [dbVol, err := VolumeDBGet(...); if err != nil &&
    !response.IsNotFoundError(err) { return err }]: the record is nil
    when it was not found. *)
Definition VolumeDBGet_orNil b (project name : string) (volType : VolumeType)
    : M S (option StorageVolume) :=
  r <- try (VolumeDBGet b project name volType) ;;
  match r with
  | inl err => if negb (IsNotFoundError err) then fail err else ret None
  | inr dbVol => ret (Some dbVol)
  end.

(** [os.Remove] of a symlink that exists, with the error wrapped. *)
Definition removeSymlinkIfExists (symlinkPath : string) : M S unit :=
  exists_ <- read (os_PathExists symlinkPath) ;;
  when exists_ (
    r <- try (call (CRemove symlinkPath) (os_Remove symlinkPath)) ;;
    match r with
    | inl err => fail (Wrapf "Failed to remove symlink" err)
    | inr _ => ret tt
    end).

Definition createSymlink (target link : string) : M S unit :=
  r <- try (call (CSymlink target link) (os_Symlink target link)) ;;
  match r with
  | inl err => fail (Wrapf "Failed to create symlink" err)
  | inr _ => ret tt
  end.

(** Lines 484-506. *)
Definition ensureInstanceSymlink b (instanceType : InstanceType)
    (projectName instanceName mountPath : string) : M S unit :=
  if IsSnapshot instanceName then fail (Errorf "Instance must not be snapshot")
  else
    let symlinkPath := InstancePath instanceType projectName instanceName false in
    removeSymlinkIfExists symlinkPath ;;
    createSymlink mountPath symlinkPath.

(** Lines 509-520. *)
Definition removeInstanceSymlink b (instanceType : InstanceType)
    (projectName instanceName : string) : M S unit :=
  let symlinkPath := InstancePath instanceType projectName instanceName false in
  removeSymlinkIfExists symlinkPath.

(** Lines 524-552. *)
Definition ensureInstanceSnapshotSymlink b (instanceType : InstanceType)
    (projectName instanceName : string) : M S unit :=
  volType <- lift (InstanceTypeToVolumeType instanceType) ;;
  let parentName := (GetParentAndSnapshotName instanceName).1.1 in
  let snapshotSymlink := InstancePath instanceType projectName parentName true in
  let volStorageName := project_Instance projectName parentName in
  let snapshotTargetPath := GetVolumeSnapshotDir (b_name b) volType volStorageName in
  removeSymlinkIfExists snapshotSymlink ;;
  createSymlink snapshotTargetPath snapshotSymlink.

(** Lines 557-581. *)
Definition removeInstanceSnapshotSymlinkIfUnused b (instanceType : InstanceType)
    (projectName instanceName : string) : M S unit :=
  volType <- lift (InstanceTypeToVolumeType instanceType) ;;
  let parentName := (GetParentAndSnapshotName instanceName).1.1 in
  let snapshotSymlink := InstancePath instanceType projectName parentName true in
  let volStorageName := project_Instance projectName parentName in
  let snapshotTargetPath := GetVolumeSnapshotDir (b_name b) volType volStorageName in
  targetExists <- read (os_PathExists snapshotTargetPath) ;;
  when (negb targetExists) (removeSymlinkIfExists snapshotSymlink).

Definition instanceDiskVolumeEffectiveFields : list string := ["size"; "size.state"].

(** Lines 584-604: the loop over [instanceDiskVolumeEffectiveFields]. *)
Fixpoint applyEffectiveFields (fields : list string) (rootDiskConf : Config) vol
    : reply Volume :=
  match fields with
  | [] => inr vol
  | k :: fields' =>
      if bool_decide (cfg rootDiskConf k ≠ "") then
        if bool_decide (k = "size")
        then applyEffectiveFields fields' rootDiskConf (SetConfigSize vol (cfg rootDiskConf k))
        else if bool_decide (k = "size.state")
        then applyEffectiveFields fields' rootDiskConf (SetConfigStateSize vol (cfg rootDiskConf k))
        else inl (Errorf "Unsupported instance disk volume override field")
      else applyEffectiveFields fields' rootDiskConf vol
  end.

Definition applyInstanceRootDiskOverrides b inst vol : M S Volume :=
  root <- lift (GetRootDiskDevice (inst_ExpandedDevices inst)) ;;
  lift (applyEffectiveFields instanceDiskVolumeEffectiveFields root.2 vol).

Definition imageFiller (fingerprint : string) : VolumeFiller := mkFiller fingerprint 0.

Definition SendLifecycle (event project name : string) : M S unit :=
  call_ (CSendLifecycle event project name) (events_SendLifecycle event project name).

(** [unlock, err := locking.Lock(...); if err != nil { return err };
    defer unlock()] around the rest of the function. *)
Definition locked {A} (lockName : string) (body : M S A) : M S A :=
  call (CLock lockName) (locking_Lock lockName) ;;
  with_defer (hook (call_ (CUnlock lockName) (locking_Unlock lockName))) body.

(** Lines 3458-3510. *)
Definition DeleteImage b (fingerprint : string) : M S unit :=
  locked (OperationLockName "DeleteImage" (b_name b) VolumeTypeImage "" fingerprint) (
    imgDBVol <- VolumeDBGet b ProjectDefaultName fingerprint VolumeTypeImage ;;
    dbContentType <- lift (VolumeContentTypeNameToContentType (sv_ContentType imgDBVol)) ;;
    contentType <- lift (VolumeDBContentTypeToContentType dbContentType) ;;
    let vol := GetVolume b VolumeTypeImage contentType fingerprint (sv_Config imgDBVol) in
    volExists <- call (CHasVolume vol) (drv_HasVolume vol) ;;
    when volExists (call (CDeleteVolume vol) (drv_DeleteVolume vol)) ;;
    VolumeDBDelete b ProjectDefaultName fingerprint (vol_type vol) ;;
    SendLifecycle "StorageVolumeDeleted" ProjectDefaultName (vol_name vol)).

(** What [EnsureImage] does once it knows whether the image volume is on
    the storage device (lines 3372-3418): either it is done ([None]) or it
    goes on to create the volume given ([Some]). *)
Definition EnsureImage_existing b (fingerprint : string) (contentType : ContentType)
    (imgDBVol : option StorageVolume) (imgVol : Volume) (volExists : bool)
    : M S (option Volume) :=
  if volExists then
    match imgDBVol with
    | Some _ =>
        newVolSize <- lift (ConfigSizeFromSource imgVol imgVol) ;;
        let imgVol := SetConfigSize imgVol newVolSize in
        r <- try (call (CSetVolumeQuota imgVol (ConfigSize imgVol) false)
                       (drv_SetVolumeQuota imgVol (ConfigSize imgVol) false)) ;;
        match r with
        | inl err =>
            if is_ErrCannotBeShrunk err || is_ErrNotSupported err then
              DeleteImage b fingerprint ;;
              ret (Some (GetVolume b VolumeTypeImage contentType fingerprint ∅))
            else fail err
        | inr _ => ret None
        end
    | None =>
        r <- try (call (CDeleteVolume imgVol) (drv_DeleteVolume imgVol)) ;;
        match r with
        | inl err => fail (Wrapf "Failed deleting leftover/partially unpacked image volume" err)
        | inr _ => ret (Some imgVol)
        end
    end
  else ret (Some imgVol).

(** Lines 3420-3454: the DB record, then the volume with the image-unpack
    filler, then the unpacked size.  The hook that deletes the volume
    holds [imgVol] by reference, so it sees the config as the last
    statement left it. *)
Definition EnsureImage_create b (fingerprint : string) (contentType : ContentType)
    (imgVol : Volume) : M S unit :=
  let volFiller := imageFiller fingerprint in
  with_revert (
    config <- VolumeDBCreate b ProjectDefaultName fingerprint "" VolumeTypeImage false
                (vol_config imgVol) 0 contentType false false ;;
    let imgVol := vol_with_config imgVol config in
    revert_Add (hook (VolumeDBDelete b ProjectDefaultName fingerprint VolumeTypeImage)) ;;
    size <- call (CCreateVolume imgVol (Some volFiller))
                 (drv_CreateVolume imgVol (Some volFiller)) ;;
    let imgVol' :=
      if bool_decide (size ≠ 0)
      then vol_with_config imgVol (<["volatile.rootfs.size" := Sprintf_d size]> (vol_config imgVol))
      else imgVol in
    revert_Add (hook (call (CDeleteVolume imgVol') (drv_DeleteVolume imgVol'))) ;;
    when (bool_decide (size ≠ 0)) (
      UpdateStoragePoolVolume ProjectDefaultName fingerprint StoragePoolVolumeTypeImage
        (b_id b) "" (vol_config imgVol')) ;;
    revert_Success).

(** Lines 3300-3370: the image's content type, its DB record unless the
    pool's defaults for new volumes have changed (then the image is
    deleted), the volume to look for, and whether it is on the storage
    device. *)
Definition EnsureImage_lookup b (fingerprint : string)
    : M S (ContentType * option StorageVolume * Volume * bool) :=
  imageType <- call (CGetImageFromAnyProject fingerprint)
                    (db_GetImageFromAnyProject fingerprint) ;;
  let contentType :=
    if bool_decide (imageType = "virtual-machine") then ContentTypeBlock else ContentTypeFS in
  imgDBVol <- VolumeDBGet_orNil b ProjectDefaultName fingerprint VolumeTypeImage ;;
  let imgVol := GetVolume b VolumeTypeImage contentType fingerprint ∅ in
  cur <- match imgDBVol with
         | Some dbVol =>
             tmpImgVol <- call (CFillVolumeConfig imgVol) (drv_FillVolumeConfig imgVol) ;;
             let imgVol := GetVolume b VolumeTypeImage contentType fingerprint (sv_Config dbVol) in
             let blockModeChanged :=
               negb (eqb (IsBlockBacked tmpImgVol) (IsBlockBacked imgVol)) in
             let blockFSChanged :=
               IsBlockBacked imgVol &&
               bool_decide (cfg (vol_config imgVol) "block.filesystem"
                            ≠ cfg (vol_config tmpImgVol) "block.filesystem") in
             if blockModeChanged || blockFSChanged then
               DeleteImage b fingerprint ;;
               ret (None, GetVolume b VolumeTypeImage contentType fingerprint ∅)
             else ret (Some dbVol, imgVol)
         | None => ret (None, imgVol)
         end ;;
  volExists <- call (CHasVolume cur.2) (drv_HasVolume cur.2) ;;
  ret (contentType, cur.1, cur.2, volExists).

(** Lines 3276-3455. *)
Definition EnsureImage b (fingerprint : string) : M S unit :=
  isStatusReady b ;;
  if negb (OptimizedImages drv_Info) then ret tt
  else
    locked (OperationLockName "EnsureImage" (b_name b) VolumeTypeImage "" fingerprint) (
      found <- EnsureImage_lookup b fingerprint ;;
      let contentType := found.1.1.1 in
      next <- EnsureImage_existing b fingerprint contentType found.1.1.2 found.1.2 found.2 ;;
      match next with
      | None => ret tt
      | Some imgVol => EnsureImage_create b fingerprint contentType imgVol
      end).

(** Lines 1768-1793: the copy of the optimized image volume, and the
    unpack into a new volume when the image volume cannot be shrunk. *)
Definition createVolumeFromImageVolume b (fingerprint : string) vol (imgVol : Volume)
    : M S unit :=
  let volCopy := NewVolumeCopy vol [] in
  let imgVolCopy := NewVolumeCopy imgVol [] in
  r <- try (call (CCreateVolumeFromCopy volCopy imgVolCopy false)
                 (drv_CreateVolumeFromCopy volCopy imgVolCopy false)) ;;
  match r with
  | inl err =>
      if is_ErrCannotBeShrunk err then
        let volFiller := imageFiller fingerprint in
        call (CCreateVolume vol (Some volFiller)) (drv_CreateVolume vol (Some volFiller)) ;;
        ret tt
      else fail err
  | inr _ => ret tt
  end.

(** Lines 1687-1808. *)
Definition CreateInstanceFromImage b inst (fingerprint : string) : M S unit :=
  isStatusReady b ;;
  volType <- lift (InstanceTypeToVolumeType (inst_Type inst)) ;;
  let contentType := InstanceContentType inst in
  with_revert (
    volumeConfig <- VolumeDBCreate b (inst_Project inst) (inst_Name inst) "" volType false
                      ∅ 0 contentType false false ;;
    revert_Add (hook (VolumeDBDelete b (inst_Project inst) (inst_Name inst) volType)) ;;
    let volStorageName := project_Instance (inst_Project inst) (inst_Name inst) in
    vol <- applyInstanceRootDiskOverrides b inst
             (GetVolume b volType contentType volStorageName volumeConfig) ;;
    vol <- (if negb (OptimizedImages drv_Info) then
              let volFiller := imageFiller fingerprint in
              call (CCreateVolume vol (Some volFiller)) (drv_CreateVolume vol (Some volFiller)) ;;
              ret vol
            else
              EnsureImage b fingerprint ;;
              imgDBVol <- VolumeDBGet b ProjectDefaultName fingerprint VolumeTypeImage ;;
              let imgVol := GetVolume b VolumeTypeImage contentType fingerprint (sv_Config imgDBVol) in
              newVolSize <- lift (ConfigSizeFromSource vol imgVol) ;;
              let vol := SetConfigSize vol newVolSize in
              createVolumeFromImageVolume b fingerprint vol imgVol ;;
              ret vol) ;;
    ensureInstanceSymlink b (inst_Type inst) (inst_Project inst) (inst_Name inst) (MountPath vol) ;;
    call (CDeferTemplateApply inst "create") (inst_DeferTemplateApply inst "create") ;;
    revert_Success).

(** [for _, x := range xs] collecting one value per element. *)
Fixpoint mapM {A B} (f : A → M S B) (xs : list A) : M S (list B) :=
  match xs with
  | [] => ret []
  | x :: xs' => y <- f x ;; ys <- mapM f xs' ;; ret (y :: ys)
  end.

(** Lines 3942-3981.  The function returns the address of a local
    [migration.Info], so its result is never nil. *)
Definition migrationIndexHeaderReceive b (indexHeaderVersion : Z) (refresh : bool)
    : M S MigrationInfo :=
  if bool_decide (indexHeaderVersion > 0) then
    r <- try (call CConnReadAll conn_ReadAll) ;;
    buf <- match r with
           | inl err => fail (Wrapf "Failed reading migration index header" err)
           | inr buf => ret buf
           end ;;
    info <- match json_Unmarshal_Info buf with
            | inl err => fail (Wrapf "Failed decoding migration index header" err)
            | inr info => ret info
            end ;;
    headerJSON <- match json_Marshal_InfoResponse 200 refresh with
                  | inl err => fail (Wrapf "Failed encoding migration index header response" err)
                  | inr j => ret j
                  end ;;
    r <- try (call (CConnWrite headerJSON) (conn_Write headerJSON)) ;;
    match r with
    | inl err => fail (Wrapf "Failed sending migration index header response" err)
    | inr _ => ret tt
    end ;;
    r <- try (call CConnClose conn_Close) ;;
    match r with
    | inl err => fail (Wrapf "Failed closing migration index header response frame" err)
    | inr _ => ret tt
    end ;;
    ret info
  else ret (mkMigrationInfo None).

(** Lines 2187-2254. *)
Definition DeleteInstance b inst : M S unit :=
  if inst_IsSnapshot inst then fail (Errorf "Instance must not be a snapshot")
  else
    volType <- lift (InstanceTypeToVolumeType (inst_Type inst)) ;;
    dbVolSnaps <- call (CVolumeDBSnapshotsGet (inst_Project inst) (inst_Name inst) volType)
                       (db_VolumeDBSnapshotsGet b (inst_Project inst) (inst_Name inst) volType) ;;
    if bool_decide (0 < length dbVolSnaps)%nat
    then fail (Errorf "Cannot remove an instance volume that has snapshots")
    else
      let volStorageName := project_Instance (inst_Project inst) (inst_Name inst) in
      let contentType := InstanceContentType inst in
      let vol := GetVolume b volType contentType volStorageName ∅ in
      volExists <- call (CHasVolume vol) (drv_HasVolume vol) ;;
      when volExists (
        r <- try (call (CDeleteVolume vol) (drv_DeleteVolume vol)) ;;
        match r with
        | inl err => fail (Wrapf "Error deleting storage volume" err)
        | inr _ => ret tt
        end) ;;
      removeInstanceSymlink b (inst_Type inst) (inst_Project inst) (inst_Name inst) ;;
      removeInstanceSnapshotSymlinkIfUnused b (inst_Type inst) (inst_Project inst) (inst_Name inst) ;;
      VolumeDBDelete b (inst_Project inst) (inst_Name inst) (vol_type vol).

(** The guard of line 1930 on the position [i] in the header's snapshot
    list of length [len], and the guard that is a bounds check. *)
Definition guard_line1930 (len i : Z) : bool := bool_decide (i - 1 ≤ len)%Z.
Definition guard_bounds (len i : Z) : bool := bool_decide (i < len)%Z.

(** Lines 1929-1939: the header's config for the snapshot at position [i],
    when there is one with the same name.  [srcInfo] itself is never nil
    (see [migrationIndexHeaderReceive]). *)
Definition headerSnapshot (guard : Z → Z → bool) (srcInfo : MigrationInfo) (i : Z)
    (snapName : string) : M S (option HeaderSnapshot) :=
  match mi_Config srcInfo with
  | None => ret None
  | Some config =>
      let VolumeSnapshots := bc_VolumeSnapshots config in
      if guard (Z.of_nat (length VolumeSnapshots)) i then
        s <- index VolumeSnapshots i ;;
        match s with
        | Some hs => if bool_decide (hs_Name hs = snapName) then ret (Some hs) else ret None
        | None => ret None
        end
      else ret None
  end.

(** Lines 1922-1949: [for i, snapName := range args.Snapshots].  By
    default the snapshot's config is the parent's config map itself, so
    what [VolumeDBCreate] does to the map is seen through [vol]. *)
Fixpoint createSnapshotRecords (guard : Z → Z → bool) b inst (srcInfo : MigrationInfo)
    (volType : VolumeType) (contentType : ContentType) (volumeDescription : string)
    (i : Z) (snapshots : list string) vol : M S Volume :=
  match snapshots with
  | [] => ret vol
  | snapName :: rest =>
      let newSnapshotName := GetSnapshotVolumeName (inst_Name inst) snapName in
      hdr <- headerSnapshot guard srcInfo i snapName ;;
      vol <- match hdr with
             | Some hs =>
                 VolumeDBCreate b (inst_Project inst) newSnapshotName (hs_Description hs) volType
                   true (hs_Config hs) (default 0 (hs_ExpiresAt hs)) contentType true true ;;
                 ret vol
             | None =>
                 config <- VolumeDBCreate b (inst_Project inst) newSnapshotName volumeDescription
                             volType true (vol_config vol) 0 contentType true true ;;
                 ret (vol_with_config vol config)
             end ;;
      revert_Add (hook (VolumeDBDelete b (inst_Project inst) newSnapshotName volType)) ;;
      createSnapshotRecords guard b inst srcInfo volType contentType volumeDescription
        (i + 1) rest vol
  end.

(** Lines 1974-2015: the pre-filler for rsync transfers whose base image
    is on this host. *)
Definition migrationPreFiller b inst (args : VolumeTargetArgs) (isRemoteClusterMove : bool)
    : M S VolumeFiller :=
  if negb (args_Refresh args) && negb isRemoteClusterMove
     && bool_decide (args_FSType args = MigrationFSType_RSYNC) then
    let fingerprint := cfg (inst_ExpandedConfig inst) "volatile.base_image" in
    imageExists <-
      (if bool_decide (fingerprint ≠ "") then
         r <- try (call (CGetImage fingerprint (inst_Project inst))
                        (db_GetImage fingerprint (inst_Project inst))) ;;
         match r with
         | inl err => if negb (IsNotFoundError err) then fail err else ret false
         | inr _ => read (os_PathExists (VarPath ["images"; fingerprint]))
         end
       else ret false) ;;
    if (imageExists : bool) then
      EnsureImage b fingerprint ;;
      ret (imageFiller fingerprint)
    else ret (mkFiller "" 0)
  else ret (mkFiller "" 0).

(** Lines 1812-2060, with the guard of line 1930 as a parameter. *)
Definition CreateInstanceFromMigration_with (guard : Z → Z → bool) b inst
    (args : VolumeTargetArgs) : M S unit :=
  isStatusReady b ;;
  if bool_decide (args_Config args ≠ None)
  then fail (Errorf "Migration VolumeTargetArgs.Config cannot be set for instances")
  else
    volType <- lift (InstanceTypeToVolumeType (inst_Type inst)) ;;
    let contentType := InstanceContentType inst in
    srcInfo <- migrationIndexHeaderReceive b (args_IndexHeaderVersion args) (args_Refresh args) ;;
    dbVol <- VolumeDBGet_orNil b (inst_Project inst) (inst_Name inst) volType ;;
    let chosen : Config * string :=
      match dbVol with
      | Some dbVol => (sv_Config dbVol, sv_Description dbVol)
      | None =>
          match mi_Config srcInfo ≫= bc_Volume with
          | Some v => (hv_Config v, hv_Description v)
          | None => (∅, args_Description args)
          end
      end in
    let volumeDescription := chosen.2 in
    let volStorageName := project_Instance (inst_Project inst) (inst_Name inst) in
    let vol := GetVolume b volType contentType volStorageName chosen.1 in
    vol <- (if bool_decide (args_FSType args = MigrationFSType_RSYNC)
               || bool_decide (args_FSType args = MigrationFSType_BLOCK_AND_RSYNC) then
              let vol := SetHasSource vol false in
              r <- try (call (CFillVolumeConfig vol) (drv_FillVolumeConfig vol)) ;;
              match r with
              | inl err => fail (Wrapf "Failed filling volume config" err)
              | inr vol => ret vol
              end
            else ret vol) ;;
    volExists <- call (CHasVolume vol) (drv_HasVolume vol) ;;
    if bool_decide (dbVol = None) && volExists
    then fail (Errorf "Volume already exists on storage but not in database")
    else if bool_decide (dbVol ≠ None) && negb volExists
    then fail (Errorf "Volume exists in database but not on storage")
    else if args_Refresh args && negb volExists
    then fail (Errorf "Cannot refresh volume, doesn't exist on migration target storage")
    else with_revert (
      let isRemoteClusterMove :=
        bool_decide (args_ClusterMoveSourceName args ≠ "") && Remote drv_Info in
      vol <- (if negb (args_Refresh args) then
                if volExists then
                  if negb isRemoteClusterMove
                  then fail (Errorf "Cannot create volume, already exists on migration target storage")
                  else ret vol
                else
                  config <- VolumeDBCreate b (inst_Project inst) (inst_Name inst)
                              volumeDescription volType false (vol_config vol) 0 contentType
                              true true ;;
                  revert_Add (hook (VolumeDBDelete b (inst_Project inst) (inst_Name inst) volType)) ;;
                  ret (vol_with_config vol config)
              else ret vol) ;;
      vol <- (if negb isRemoteClusterMove
              then createSnapshotRecords guard b inst srcInfo volType contentType
                     volumeDescription 0 (args_Snapshots args) vol
              else ret vol) ;;
      vol <- applyInstanceRootDiskOverrides b inst vol ;;
      let vol :=
        if bool_decide (args_VolumeSize args > 0) && bool_decide (contentType = ContentTypeBlock)
        then SetConfigSize vol (Sprintf_d (args_VolumeSize args))
        else vol in
      let args :=
        mkTargetArgs (args_IndexHeaderVersion args) (inst_Name inst) (args_Description args)
          (Some (vol_config vol)) (args_Snapshots args) (args_FSType args) (args_Refresh args)
          (args_VolumeSize args) (args_ClusterMoveSourceName args) in
      preFiller <- migrationPreFiller b inst args isRemoteClusterMove ;;
      instSnapshots <- call (CSnapshots inst) (inst_Snapshots inst) ;;
      targetSnapshots <- mapM (λ instSnapshot,
          snap <- VolumeDBGet b (inst_Project inst) (inst_Name instSnapshot) volType ;;
          let snapshotStorageName := project_Instance (inst_Project inst) (inst_Name instSnapshot) in
          ret (GetVolume b volType contentType snapshotStorageName (sv_Config snap)))
        instSnapshots ;;
      let volCopy := NewVolumeCopy vol targetSnapshots in
      call (CCreateVolumeFromMigration volCopy args preFiller)
           (drv_CreateVolumeFromMigration volCopy args preFiller) ;;
      when (negb isRemoteClusterMove) (revert_Add (hook (DeleteInstance b inst))) ;;
      ensureInstanceSymlink b (inst_Type inst) (inst_Project inst) (inst_Name inst) (MountPath vol) ;;
      when (bool_decide (0 < length (args_Snapshots args))%nat)
        (ensureInstanceSnapshotSymlink b (inst_Type inst) (inst_Project inst) (inst_Name inst)) ;;
      revert_Success).

Definition CreateInstanceFromMigration b inst (args : VolumeTargetArgs) : M S unit :=
  CreateInstanceFromMigration_with guard_line1930 b inst args.




(** Lines 2649-2694. *)
Definition SetInstanceQuota b inst (size vmStateSize : string) : M S unit :=
  volType <- lift (InstanceTypeToVolumeType (inst_Type inst)) ;;
  let contentVolume := InstanceContentType inst in
  let volStorageName := project_Instance (inst_Project inst) (inst_Name inst) in
  dbVol <- VolumeDBGet b (inst_Project inst) (inst_Name inst) volType ;;
  let vol := GetVolume b volType contentVolume volStorageName (sv_Config dbVol) in
  call (CSetVolumeQuota vol size false) (drv_SetVolumeQuota vol size false) ;;
  when (IsVMBlock vol) (
    let vmStateSize :=
      if bool_decide (vmStateSize = "") && bool_decide (size ≠ "")
      then DefaultVMBlockFilesystemSize drv_Info
      else vmStateSize in
    let fsVol := NewVMBlockFilesystemVolume vol in
    call (CSetVolumeQuota fsVol vmStateSize false) (drv_SetVolumeQuota fsVol vmStateSize false)).

End Instances.

(** ** Restore and custom volumes *)

(** Lines 4301-4326: the keys of either map whose values differ, with
    their new values (empty for deleted keys), and whether all of them
    start with [user.]. *)
Definition detectChangedKey (curConfig newConfig : Config) (key : string) (_ : string)
    (acc : Config * bool) : Config * bool :=
  if bool_decide (cfg curConfig key ≠ cfg newConfig key)
  then (<[key := cfg newConfig key]> acc.1, acc.2 && String.prefix "user." key)
  else acc.

Definition detectChangedConfig (curConfig newConfig : Config) : Config * bool :=
  map_fold (detectChangedKey curConfig newConfig)
    (map_fold (detectChangedKey curConfig newConfig) (∅, true) curConfig)
    newConfig.

Section Restore.
Context {S : Type} `{!Driver S, !Cluster S, !Host S, !Helpers}.
Implicit Types (b : lxdBackend) (w : World S) (inst src : Instance) (vol : Volume).

Definition RestoreVolume vol (snapVol : Volume) : M S unit :=
  call (CRestoreVolume vol snapVol) (drv_RestoreVolume vol snapVol).

(** Lines 3155-3167: the instance's snapshots that the error lists are
    deleted, in the order [inst.Snapshots()] gives them. *)
Definition deleteListedSnapshots (snaps : list Instance) (listed : list string) : M S unit :=
  forM_ snaps (λ snap,
    let snapName := (GetParentAndSnapshotName (inst_Name snap)).1.2 in
    if negb (StringInSlice snapName listed) then ret tt
    else call (CDelete snap true) (inst_Delete snap true)).

(** Lines 3145-3182: the restore, repeated once after the snapshots the
    driver asks for are deleted.  Only the direct success reaches
    [revert.Success()]. *)
Definition restoreInstanceVolume inst vol (snapVol : Volume) : M S unit :=
  r <- try (RestoreVolume vol snapVol) ;;
  match r with
  | inl err =>
      match as_ErrDeleteSnapshots err with
      | Some listed =>
          snaps <- call (CSnapshots inst) (inst_Snapshots inst) ;;
          deleteListedSnapshots snaps listed ;;
          RestoreVolume vol snapVol ;;
          ret tt
      | None => fail err
      end
  | inr _ => revert_Success
  end.

(** Lines 3061-3183. *)
Definition RestoreInstanceSnapshot b inst src : M S unit :=
  with_revert (
    if bool_decide (inst_Type inst ≠ inst_Type src) then fail (Errorf "Instance types must match")
    else if inst_IsSnapshot inst then fail (Errorf "Instance must not be snapshot")
    else if negb (inst_IsSnapshot src) then fail (Errorf "Source instance must be a snapshot")
    else
      running <- read (inst_IsRunning inst) ;;
      if (running : bool) then fail (Errorf "Instance must not be running to restore")
      else
        volType <- lift (InstanceTypeToVolumeType (inst_Type inst)) ;;
        let contentType := InstanceContentType inst in
        dbVol <- VolumeDBGet b (inst_Project inst) (inst_Name inst) volType ;;
        let volStorageName := project_Instance (inst_Project inst) (inst_Name inst) in
        vol <- applyInstanceRootDiskOverrides b inst
                 (GetVolume b volType contentType volStorageName (sv_Config dbVol)) ;;
        if negb (GetParentAndSnapshotName (inst_Name src)).2
        then fail (Errorf "Volume name must be a snapshot")
        else
          srcDBVol <- VolumeDBGet b (inst_Project src) (inst_Name src) volType ;;
          let changedConfig := (detectChangedConfig (sv_Config dbVol) (sv_Config srcDBVol)).1 in
          when (bool_decide (size changedConfig ≠ 0%nat)
                || bool_decide (sv_Description dbVol ≠ sv_Description srcDBVol)) (
            volDBType <- lift (VolumeTypeToDBType volType) ;;
            UpdateStoragePoolVolume (inst_Project inst) (inst_Name inst) volDBType (b_id b)
              (sv_Description srcDBVol) (sv_Config srcDBVol) ;;
            revert_Add (hook (
              UpdateStoragePoolVolume (inst_Project inst) (inst_Name inst) volDBType (b_id b)
                (sv_Description dbVol) (sv_Config dbVol)))) ;;
          dbSnapVol <- VolumeDBGet b (inst_Project src) (inst_Name src) volType ;;
          let snapshotStorageName := project_StorageVolume (inst_Project src) (sv_Name dbSnapVol) in
          let snapVol := GetVolume b volType contentType snapshotStorageName (sv_Config dbSnapVol) in
          restoreInstanceVolume inst vol snapVol).

(** Lines 4867-4924. *)
Definition DeleteCustomVolumeSnapshot b (projectName volName : string) : M S unit :=
  if negb (IsSnapshot volName) then fail (Errorf "Volume name must be a snapshot")
  else
    volume <- VolumeDBGet b projectName volName VolumeTypeCustom ;;
    dbContentType <- lift (VolumeContentTypeNameToContentType (sv_ContentType volume)) ;;
    contentType <- lift (VolumeDBContentTypeToContentType dbContentType) ;;
    let volStorageName := project_StorageVolume projectName volName in
    let vol := GetVolume b VolumeTypeCustom contentType volStorageName ∅ in
    volExists <- call (CHasVolume vol) (drv_HasVolume vol) ;;
    when volExists (call (CDeleteVolumeSnapshot vol) (drv_DeleteVolumeSnapshot vol)) ;;
    VolumeDBDelete b projectName volName (vol_type vol) ;;
    SendLifecycle "StorageVolumeSnapshotDeleted" projectName (vol_name vol).

(** Lines 4491-4497: each snapshot of the volume is removed. *)
Definition deleteSnapshotsOf b (projectName : string) (snapshots : list StorageVolume)
    : M S unit :=
  forM_ snapshots (λ snapshot, DeleteCustomVolumeSnapshot b projectName (sv_Name snapshot)).

(** Lines 4499-4552: the volume on the storage device, its backups
    directory and its DB record are removed. *)
Definition deleteVolumeAndRecord b (projectName volName : string) : M S unit :=
    let volStorageName := project_StorageVolume projectName volName in
    curVol <- VolumeDBGet b projectName volName VolumeTypeCustom ;;
    dbContentType <- lift (VolumeContentTypeNameToContentType (sv_ContentType curVol)) ;;
    contentType <- lift (VolumeDBContentTypeToContentType dbContentType) ;;
    let vol := GetVolume b VolumeTypeCustom contentType volStorageName ∅ in
    volExists <- call (CHasVolume vol) (drv_HasVolume vol) ;;
    when volExists (call (CDeleteVolume vol) (drv_DeleteVolume vol)) ;;
    let backupsPath :=
      VarPath ["backups"; "custom"; b_name b; project_StorageVolume projectName volName] in
    backupsExist <- read (os_PathExists backupsPath) ;;
    when backupsExist (call (CRemoveAll backupsPath) (os_RemoveAll backupsPath)) ;;
    VolumeDBDelete b projectName volName (vol_type vol) ;;
    SendLifecycle "StorageVolumeDeleted" projectName (vol_name vol).

(** Lines 4475-4553. *)
Definition DeleteCustomVolume b (projectName volName : string) : M S unit :=
  if (GetParentAndSnapshotName volName).2 then fail (Errorf "Volume name cannot be a snapshot")
  else
    snapshots <- call (CVolumeDBSnapshotsGet projectName volName VolumeTypeCustom)
                      (db_VolumeDBSnapshotsGet b projectName volName VolumeTypeCustom) ;;
    deleteSnapshotsOf b projectName snapshots ;;
    deleteVolumeAndRecord b projectName volName.

(** Lines 4948-4962: [VolumeUsedByInstanceDevices] hands each instance
    that uses the volume to the callback, which loads it and refuses a
    running one. *)
Definition checkNotUsedByRunningInstances b (projectName : string) (curVol : StorageVolume)
    : M S unit :=
  usedBy <- call (CVolumeUsedByInstanceDevices (b_name b) projectName curVol)
                 (host_VolumeUsedByInstanceDevices (b_name b) projectName curVol) ;;
  forM_ usedBy (λ dbInst,
    inst <- call (CInstanceLoad dbInst) (host_InstanceLoad dbInst) ;;
    running <- read (inst_IsRunning inst) ;;
    if (running : bool)
    then fail (Errorf "Cannot restore custom volume used by running instances")
    else ret tt).

(** Lines 4993-4998. *)
Definition deleteNamedSnapshots b (projectName volName : string) (listed : list string)
    : M S unit :=
  forM_ listed (λ snapName,
    DeleteCustomVolumeSnapshot b projectName (volName +:+ "/" +:+ snapName)).



End Restore.

(** ** More operations that produce volumes *)

(** The calls of [CreateCustomVolumeFromISO] that are not on the driver:
    [project.AllowVolumeCreation] in a transaction of the cluster
    database, and [Seek(0, io.SeekStart)] on the data to unpack. *)
Class VolumeImport (S : Type) : Type := {
  project_AllowVolumeCreation : string → string → Config → S → reply unit * S;
  srcData_Seek : S → reply unit * S
}.

(** A call of that interface: it acts on the external state and returns
    its reply. *)
Definition perform {S A} (f : S → reply A * S) : M S A := λ rv w,
  (of_reply (f (ext w)).1, rv, mkWorld (f (ext w)).2 (unavailablePools w) (calls w)).

Section Producing.
Context {S : Type} `{!Driver S, !Cluster S, !Host S, !Helpers, !VolumeImport S}.
Implicit Types (b : lxdBackend) (w : World S) (inst src : Instance) (vol : Volume).

(** Lines 607-663.  [VolumeDBCreate] fills [volumeConfig] in place, and
    the volume is built from the map as the call left it. *)
Definition CreateInstance b inst : M S unit :=
  isStatusReady b ;;
  volType <- lift (InstanceTypeToVolumeType (inst_Type inst)) ;;
  let contentType := InstanceContentType inst in
  with_revert (
    volumeConfig <- VolumeDBCreate b (inst_Project inst) (inst_Name inst) "" volType false
                      ∅ 0 contentType false false ;;
    revert_Add (hook (VolumeDBDelete b (inst_Project inst) (inst_Name inst) volType)) ;;
    let volStorageName := project_Instance (inst_Project inst) (inst_Name inst) in
    vol <- applyInstanceRootDiskOverrides b inst
             (GetVolume b volType contentType volStorageName volumeConfig) ;;
    call (CCreateVolume vol None) (drv_CreateVolume vol None) ;;
    revert_Add (hook (DeleteInstance b inst)) ;;
    ensureInstanceSymlink b (inst_Type inst) (inst_Project inst) (inst_Name inst) (MountPath vol) ;;
    call (CDeferTemplateApply inst "create") (inst_DeferTemplateApply inst "create") ;;
    revert_Success).

(** Lines 3575-3627.  The loop over [Info().VolumeTypes] is a membership
    test; [VolumeDBCreate] is given the volume's own config map and fills
    it in place. *)
Definition CreateCustomVolume b (projectName volName desc : string) (config : Config)
    (contentType : ContentType) : M S unit :=
  isStatusReady b ;;
  let volStorageName := project_StorageVolume projectName volName in
  let vol := GetVolume b VolumeTypeCustom contentType volStorageName config in
  if negb (bool_decide (VolumeTypeCustom ∈ VolumeTypes drv_Info))
  then fail (Errorf "Storage pool does not support custom volume type")
  else
    with_revert (
      filled <- VolumeDBCreate b projectName volName desc (vol_type vol) false
                  (vol_config vol) 0 (vol_contentType vol) false false ;;
      let vol := vol_with_config vol filled in
      revert_Add (hook (VolumeDBDelete b projectName volName (vol_type vol))) ;;
      call (CCreateVolume vol None) (drv_CreateVolume vol None) ;;
      SendLifecycle "StorageVolumeCreated" projectName (vol_name vol) ;;
      revert_Success).

(** The copy, refresh and migration operations of custom volumes and the
    copy of an instance start, after the logging, with
    [err := b.isStatusReady(); if err != nil { return err }].  They are
    modelled up to their first use of another pool or of the migration
    connection; [rest] stands for the statements from there on, whatever
    they do, and is given the values computed so far. *)

(** Lines 899-918; [rest] is lines 920-1124. *)
Definition CreateInstanceFromCopy b inst src (snapshots allowInconsistent : bool)
    (rest : VolumeType → ContentType → M S unit) : M S unit :=
  isStatusReady b ;;
  if bool_decide (inst_Type inst ≠ inst_Type src)
  then fail (Errorf "Instance types must match")
  else
    volType <- lift (InstanceTypeToVolumeType (inst_Type inst)) ;;
    let contentType := InstanceContentType inst in
    rest volType contentType.

(** Lines 1129-1141; [rest] is lines 1143-1417, given [srcProjectName]. *)
Definition RefreshCustomVolume b (projectName srcProjectName volName desc : string)
    (config : Config) (srcPoolName srcVolName : string) (snapshots : bool)
    (rest : string → M S unit) : M S unit :=
  isStatusReady b ;;
  let srcProjectName :=
    if bool_decide (srcProjectName = "") then projectName else srcProjectName in
  rest srcProjectName.

(** Lines 3631-3643; [rest] is lines 3645-3895, given [srcProjectName]. *)
Definition CreateCustomVolumeFromCopy b (projectName srcProjectName volName desc : string)
    (config : Config) (srcPoolName srcVolName : string) (snapshots : bool)
    (rest : string → M S unit) : M S unit :=
  isStatusReady b ;;
  let srcProjectName :=
    if bool_decide (srcProjectName = "") then projectName else srcProjectName in
  rest srcProjectName.

(** Lines 4049-4084; [rest] is lines 4086-4207, given [dbVol] and
    [volumeConfig].  The loop over [Info().VolumeTypes] is a membership
    test. *)
Definition CreateCustomVolumeFromMigration b (projectName : string) (args : VolumeTargetArgs)
    (rest : option StorageVolume → option Config → M S unit) : M S unit :=
  isStatusReady b ;;
  if negb (bool_decide (VolumeTypeCustom ∈ VolumeTypes drv_Info))
  then fail (Errorf "Storage pool does not support custom volume type")
  else
    dbVol <- VolumeDBGet_orNil b projectName (args_Name args) VolumeTypeCustom ;;
    let volumeConfig :=
      match dbVol with
      | Some dbVol => Some (sv_Config dbVol)
      | None => args_Config args
      end in
    rest dbVol volumeConfig.

(** Lines 1672-1683 and 5851-5853: the filler of an ISO volume has the
    [Fill] function only. *)
Definition isoFiller : VolumeFiller := mkFiller "" 0.

(** Lines 5799-5870.  There is no call of [isStatusReady].
    [VolumeDBCreate] is given the volume's own config map and fills it in
    place. *)
Definition CreateCustomVolumeFromISO b (projectName volName : string) (size : Z)
    : M S unit :=
  let config : Config := {["size" := Sprintf_d size]} in
  r <- try (perform (project_AllowVolumeCreation projectName volName config)) ;;
  match r with
  | inl err => fail (Wrapf "Failed checking volume creation allowed" err)
  | inr _ => ret tt
  end ;;
  with_revert (
    let volStorageName := project_StorageVolume projectName volName in
    let vol := GetVolume b VolumeTypeCustom ContentTypeISO volStorageName config in
    volExists <- call (CHasVolume vol) (drv_HasVolume vol) ;;
    if (volExists : bool)
    then fail (Errorf "Cannot create volume, already exists on target storage")
    else
      r <- try (VolumeDBCreate b projectName volName "" (vol_type vol) false
                  (vol_config vol) 0 (vol_contentType vol) true true) ;;
      filled <- match r with
                | inl err =>
                    fail (Wrapf "Failed creating database entry for custom volume" err)
                | inr filled => ret filled
                end ;;
      let vol := vol_with_config vol filled in
      revert_Add (hook (VolumeDBDelete b projectName volName (vol_type vol))) ;;
      perform srcData_Seek ;;
      let volFiller := isoFiller in
      r <- try (call (CCreateVolume vol (Some volFiller))
                     (drv_CreateVolume vol (Some volFiller))) ;;
      match r with
      | inl err => fail (Wrapf "Failed creating volume" err)
      | inr _ => ret tt
      end ;;
      SendLifecycle "StorageVolumeCreated" projectName (vol_name vol) ;;
      revert_Success).

End Producing.

(** ** The companion quota in the words of the specification

    The size of the quota of a VM's config-filesystem volume as the
    specification words it: the explicit [size.state] when given,
    otherwise the driver's default when the main size is given, otherwise
    empty.  [SetInstanceQuota] is compared with it below. *)
Definition companionQuotaSize (size vmStateSize defaultSize : string) : string :=
  if bool_decide (vmStateSize ≠ "") then vmStateSize
  else if bool_decide (size ≠ "") then defaultSize
  else "".

(** ** Reading the recorded calls *)

(** The volume records whose deletion from the database succeeded, in the
    order of the calls. *)
Definition dbDeleted (tr : list Event) : list (string * string * VolumeType) :=
  omap (λ ev, match ev with
              | (CVolumeDBDelete project name volType, None) => Some (project, name, volType)
              | _ => None
              end) tr.

(** The [RestoreVolume] calls among the recorded calls. *)
Definition restores (tr : list Event) : list Event :=
  filter (λ ev, is_CRestoreVolume ev.1) tr.

(** The instance's snapshots whose snapshot name the driver's error
    lists, in the order [inst.Snapshots()] gives them. *)
Definition listedSnapshots (snaps : list Instance) (listed : list string) : list Instance :=
  filter (λ snap, StringInSlice (GetParentAndSnapshotName (inst_Name snap)).1.2 listed) snaps.

(** The DB records of the snapshots of custom volume [volName] with the
    given snapshot names. *)
Definition snapshotRecords (projectName volName : string) (names : list string)
    : list (string * string * VolumeType) :=
  (λ snapName, (projectName, volName +:+ "/" +:+ snapName, VolumeTypeCustom)) <$> names.

(** The [Delete] calls on instances among the recorded calls. *)
Definition instanceDeletes (tr : list Event) : list Event :=
  filter (λ ev, is_CDelete ev.1) tr.

(** The [UpdateStoragePoolVolume] calls among the recorded calls. *)
Definition updates (tr : list Event) : list Event :=
  filter (λ ev, is_CUpdateStoragePoolVolume ev.1) tr.


(** The outcome of an operation that returns the error of a call. *)
Definition result_of (o : option error) : result unit :=
  match o with None => Ok tt | Some e => Fail e end.

(** Successful [Delete] calls on the given snapshots, in order. *)
Definition deleteCalls (snaps : list Instance) : list Event :=
  (λ snap, (CDelete snap true, None)) <$> snaps.

(** ** Deletions of custom volumes, from state to state *)

Section Deleted.
Context {S : Type} `{!Driver S, !Cluster S, !Host S, !Helpers}.
Implicit Types (b : lxdBackend) (w : World S).

(** The snapshot [volName] of a custom volume is deleted between [w] and
    [w']: its record is read, the driver is asked whether it has the
    snapshot volume and, when it has, deletes the snapshot; then the
    record is deleted and the event is sent.  Every call has succeeded,
    and no other call was made. *)
Definition snapshotDeleted b (projectName volName : string) (w w' : World S) : Prop :=
  ∃ volume s1 dbContentType contentType (volExists : bool) s2 s3 s4,
    let vol := GetVolume b VolumeTypeCustom contentType
                 (project_StorageVolume projectName volName) ∅ in
    IsSnapshot volName = true
    ∧ db_VolumeDBGet b projectName volName VolumeTypeCustom (ext w) = (inr volume, s1)
    ∧ VolumeContentTypeNameToContentType (sv_ContentType volume) = inr dbContentType
    ∧ VolumeDBContentTypeToContentType dbContentType = inr contentType
    ∧ drv_HasVolume vol s1 = (inr volExists, s2)
    ∧ (if volExists then drv_DeleteVolumeSnapshot vol s2 = (inr tt, s3) else s3 = s2)
    ∧ db_VolumeDBDelete b projectName volName VolumeTypeCustom s3 = (inr tt, s4)
    ∧ w' = mkWorld
             (events_SendLifecycle "StorageVolumeSnapshotDeleted" projectName (vol_name vol) s4)
             (unavailablePools w)
             (calls w
                ++ [(CVolumeDBGet projectName volName VolumeTypeCustom, None);
                    (CHasVolume vol, None)]
                ++ (if volExists then [(CDeleteVolumeSnapshot vol, None)] else [])
                ++ [(CVolumeDBDelete projectName volName VolumeTypeCustom, None);
                    (CSendLifecycle "StorageVolumeSnapshotDeleted" projectName (vol_name vol),
                     None)]).

(** The snapshots [volNames] are deleted one after the other, in this
    order. *)
Fixpoint snapshotsDeleted b (projectName : string) (volNames : list string)
    (w w' : World S) : Prop :=
  match volNames with
  | [] => w' = w
  | volName :: rest =>
      ∃ w1, snapshotDeleted b projectName volName w w1
            ∧ snapshotsDeleted b projectName rest w1 w'
  end.

(** The custom volume [volName] is deleted between [w] and [w']: its
    record is read, the driver is asked whether it has the volume and,
    when it has, deletes it; the directory of the volume's backups is
    removed when it exists; then the record is deleted and the event is
    sent.  Every call has succeeded, and no other call was made. *)
Definition volumeDeleted b (projectName volName : string) (w w' : World S) : Prop :=
  ∃ curVol s1 dbContentType contentType (volExists : bool) s2 s3 s4 s5,
    let vol := GetVolume b VolumeTypeCustom contentType
                 (project_StorageVolume projectName volName) ∅ in
    let backupsPath :=
      VarPath ["backups"; "custom"; b_name b; project_StorageVolume projectName volName] in
    let backupsExist := os_PathExists backupsPath s3 in
    db_VolumeDBGet b projectName volName VolumeTypeCustom (ext w) = (inr curVol, s1)
    ∧ VolumeContentTypeNameToContentType (sv_ContentType curVol) = inr dbContentType
    ∧ VolumeDBContentTypeToContentType dbContentType = inr contentType
    ∧ drv_HasVolume vol s1 = (inr volExists, s2)
    ∧ (if volExists then drv_DeleteVolume vol s2 = (inr tt, s3) else s3 = s2)
    ∧ (if backupsExist then os_RemoveAll backupsPath s3 = (inr tt, s4) else s4 = s3)
    ∧ db_VolumeDBDelete b projectName volName VolumeTypeCustom s4 = (inr tt, s5)
    ∧ w' = mkWorld
             (events_SendLifecycle "StorageVolumeDeleted" projectName (vol_name vol) s5)
             (unavailablePools w)
             (calls w
                ++ [(CVolumeDBGet projectName volName VolumeTypeCustom, None);
                    (CHasVolume vol, None)]
                ++ (if volExists then [(CDeleteVolume vol, None)] else [])
                ++ (if backupsExist then [(CRemoveAll backupsPath, None)] else [])
                ++ [(CVolumeDBDelete projectName volName VolumeTypeCustom, None);
                    (CSendLifecycle "StorageVolumeDeleted" projectName (vol_name vol),
                     None)]).

End Deleted.

(** ** Predicates on operations *)

(** An operation is [plain] when it returns the revert chain it was given
    and does not touch [unavailablePools]: it acts through the interfaces
    only. *)
Definition plain {S A} (m : M S A) : Prop :=
  ∀ rv w, (m rv w).1.2 = rv ∧ unavailablePools (m rv w).2 = unavailablePools w.

(** An operation that never ends in a run-time panic. *)
Definition nopanic {S A} (m : M S A) : Prop :=
  ∀ rv w msg, (m rv w).1.1 ≠ Panic msg.

(** Recorded calls that are all of an allowed kind. *)
Definition allowed (P : Call → bool) (tr : list Event) : Prop :=
  Forall (λ ev, P ev.1 = true) tr.

(** A revert hook that only makes calls of an allowed kind. *)
Definition hook_emits {S} (P : Call → bool) (h : World S → World S) : Prop :=
  ∀ w, ∃ tr, calls (h w) = calls w ++ tr ∧ allowed P tr.

(** An operation that only makes calls of an allowed kind, and that only
    adds hooks of that sort to the revert chain. *)
Definition emits {S A} (P : Call → bool) (m : M S A) : Prop :=
  ∀ rv w,
    (∃ tr, calls (m rv w).2 = calls w ++ tr ∧ allowed P tr)
    ∧ ∃ hs, (m rv w).1.2 = hs ++ rv ∧ Forall (hook_emits P) hs.

(** The same for an operation that ends with [revert.Success()]: the
    chain is empty when it returns without error. *)
Definition finishes {S A} (P : Call → bool) (m : M S A) : Prop :=
  ∀ rv w,
    (∃ tr, calls (m rv w).2 = calls w ++ tr ∧ allowed P tr)
    ∧ match (m rv w).1.1 with
      | Ok _ => (m rv w).1.2 = []
      | _ => ∃ hs, (m rv w).1.2 = hs ++ rv ∧ Forall (hook_emits P) hs
      end.

(** Every call but [RenameStoragePoolVolume]. *)
Definition notRename (c : Call) : bool := negb (is_CRenameStoragePoolVolume c).






(** The error of [isStatusReady] for a pool that is not ready. *)
Definition notReadyError (b : lxdBackend) : error :=
  if bool_decide (Status b = StoragePoolStatusPending)
  then Errorf "Specified pool is not fully created"
  else StatusErrorf StatusServiceUnavailable "Storage pool is unavailable on this server".

(** ** An in-memory driver, database and host

    A small implementation of the three interfaces, used to run the
    backend operations on concrete inputs: volume records in a list, the
    names of the volumes on the storage device, the paths that exist,
    and the faults to inject (scripted driver replies, a budget of
    database writes, snapshots the driver cannot delete). *)
Module Sim.

Record Record_ : Type := mkRecord {
  rec_project : string;
  rec_type : VolumeType;
  rec_vol : StorageVolume
}.

Record State : Type := mkState {
  records : list Record_;
  onDisk : list (VolumeType * string);
  paths : list string;
  running : list string;
  restoreReplies : list (reply unit);
  quotaReply : reply unit;
  copyReply : reply unit;
  mountReply : reply bool;
  busySnapshots : list string;
  dbWritesLeft : option nat
}.

Definition set_records (f : list Record_ → list Record_) (s : State) : State :=
  mkState (f (records s)) (onDisk s) (paths s) (running s) (restoreReplies s) (quotaReply s)
    (copyReply s) (mountReply s) (busySnapshots s) (dbWritesLeft s).

Definition set_onDisk (f : list (VolumeType * string) → list (VolumeType * string)) (s : State)
    : State :=
  mkState (records s) (f (onDisk s)) (paths s) (running s) (restoreReplies s) (quotaReply s)
    (copyReply s) (mountReply s) (busySnapshots s) (dbWritesLeft s).

Definition set_paths (f : list string → list string) (s : State) : State :=
  mkState (records s) (onDisk s) (f (paths s)) (running s) (restoreReplies s) (quotaReply s)
    (copyReply s) (mountReply s) (busySnapshots s) (dbWritesLeft s).

Definition set_restoreReplies (l : list (reply unit)) (s : State) : State :=
  mkState (records s) (onDisk s) (paths s) (running s) l (quotaReply s)
    (copyReply s) (mountReply s) (busySnapshots s) (dbWritesLeft s).

Definition set_dbWritesLeft (n : option nat) (s : State) : State :=
  mkState (records s) (onDisk s) (paths s) (running s) (restoreReplies s) (quotaReply s)
    (copyReply s) (mountReply s) (busySnapshots s) n.

Definition is_record (project name : string) (t : VolumeType) (r : Record_) : bool :=
  bool_decide (rec_project r = project) && bool_decide (sv_Name (rec_vol r) = name)
  && bool_decide (rec_type r = t).

Definition find_record (project name : string) (t : VolumeType) (s : State) : option Record_ :=
  List.find (is_record project name t) (records s).

Definition is_snapshot_of (project name : string) (t : VolumeType) (r : Record_) : bool :=
  bool_decide (rec_project r = project) && bool_decide (rec_type r = t)
  && bool_decide (GetParentAndSnapshotName (sv_Name (rec_vol r)) = (name, (GetParentAndSnapshotName (sv_Name (rec_vol r))).1.2, true)).

Definition contentTypeName (c : ContentType) : string :=
  match c with
  | ContentTypeFS => "filesystem"
  | ContentTypeBlock => "block"
  | ContentTypeISO => "iso"
  end.

(** A database write: refused once the budget of writes is used up. *)
Definition db_write (f : State → reply unit * State) (s : State) : reply unit * State :=
  match dbWritesLeft s with
  | Some O => (inl (Errorf "database is unavailable"), s)
  | Some (Datatypes.S n) => f (set_dbWritesLeft (Some n) s)
  | None => f s
  end.

Definition notFound : error := StatusErrorf StatusNotFound "Storage volume not found".

Definition rename_record (project oldName newName : string) (r : Record_) : Record_ :=
  if bool_decide (rec_project r = project) && bool_decide (sv_Name (rec_vol r) = oldName)
  then mkRecord (rec_project r) (rec_type r)
         (mkStorageVolume newName (sv_Description (rec_vol r)) (sv_Config (rec_vol r))
            (sv_ContentType (rec_vol r)))
  else r.

Definition update_record (project name desc : string) (config : Config) (r : Record_) : Record_ :=
  if bool_decide (rec_project r = project) && bool_decide (sv_Name (rec_vol r) = name)
  then mkRecord (rec_project r) (rec_type r)
         (mkStorageVolume name desc config (sv_ContentType (rec_vol r)))
  else r.

Definition has_name (project name : string) (s : State) : bool :=
  existsb (λ r, bool_decide (rec_project r = project) && bool_decide (sv_Name (rec_vol r) = name))
    (records s).

#[global] Instance cluster : Cluster State := {
  db_GetNodeID := λ _, 1;
  db_VolumeDBGet := λ _ project name t s,
    match find_record project name t s with
    | Some r => (inr (rec_vol r), s)
    | None => (inl notFound, s)
    end;
  db_VolumeDBCreate := λ _ project name desc t _ config _ contentType _ _ s,
    match find_record project name t s with
    | Some _ => (inl (Errorf "Storage volume already exists"), s)
    | None =>
        match db_write (λ s', (inr tt, set_records (λ l, (l ++ [mkRecord project t
                 (mkStorageVolume name desc config (contentTypeName contentType))])%list) s')) s with
        | (inl e, s') => (inl e, s')
        | (inr _, s') => (inr config, s')
        end
    end;
  db_VolumeDBDelete := λ _ project name t,
    db_write (λ s, (inr tt, set_records (filter (λ r, is_record project name t r = false)) s));
  db_VolumeDBSnapshotsGet := λ _ project name t s,
    (inr (rec_vol <$> filter (λ r, is_snapshot_of project name t r = true) (records s)), s);
  db_UpdateStoragePoolVolume := λ project name _ _ desc config,
    db_write (λ s,
      if has_name project name s
      then (inr tt, set_records (map (update_record project name desc config)) s)
      else (inl notFound, s));
  db_RenameStoragePoolVolume := λ project oldName newName _ _,
    db_write (λ s,
      if has_name project oldName s
      then (inr tt, set_records (map (rename_record project oldName newName)) s)
      else (inl notFound, s));
  db_GetInstanceSnapshotsNames := λ project name s,
    (inr (remove_dups ((λ r, sv_Name (rec_vol r)) <$>
            filter (λ r, bool_decide (rec_project r = project)
                         && bool_decide ((GetParentAndSnapshotName (sv_Name (rec_vol r))).1.1 = name)
                         && (GetParentAndSnapshotName (sv_Name (rec_vol r))).2 = true)
              (records s))), s);
  db_GetImageFromAnyProject := λ _ s, (inr "container", s);
  db_GetImage := λ _ _ s, (inr tt, s)
}.

Definition on_disk (vol : Volume) (s : State) : bool :=
  bool_decide ((vol_type vol, vol_name vol) ∈ onDisk s).

Definition add_volume (vol : Volume) : State → State :=
  set_onDisk (λ l, (l ++ [(vol_type vol, vol_name vol)])%list).

Definition remove_volume (vol : Volume) : State → State :=
  set_onDisk (filter (λ v, v ≠ (vol_type vol, vol_name vol))).

#[global] Instance driver : Driver State := {
  drv_Info := mkInfo true false false
                [VolumeTypeContainer; VolumeTypeVM; VolumeTypeImage; VolumeTypeCustom] "100MiB";
  drv_Mount := λ s, (mountReply s, s);
  drv_Unmount := λ s, (inr true, s);
  drv_HasVolume := λ vol s, (inr (on_disk vol s), s);
  drv_FillVolumeConfig := λ vol s, (inr vol, s);
  drv_CreateVolume := λ vol _ s,
    if on_disk vol s then (inl (Errorf "Volume already exists"), s)
    else (inr 0, add_volume vol s);
  drv_CreateVolumeFromCopy := λ vol _ _ s,
    match copyReply s with
    | inl e => (inl e, s)
    | inr _ => (inr tt, add_volume vol.1 s)
    end;
  drv_CreateVolumeFromMigration := λ vol _ _ s, (inr tt, add_volume vol.1 s);
  drv_DeleteVolume := λ vol s, (inr tt, remove_volume vol s);
  drv_DeleteVolumeSnapshot := λ vol s,
    if bool_decide (vol_name vol ∈ busySnapshots s)
    then (inl (Errorf "Snapshot is busy"), s)
    else (inr tt, remove_volume vol s);
  drv_RenameVolume := λ vol newName s,
    (inr tt, set_onDisk (map (λ v, if bool_decide (v = (vol_type vol, vol_name vol))
                                   then (vol_type vol, newName) else v)) s);
  drv_SetVolumeQuota := λ _ _ _ s, (quotaReply s, s);
  drv_RestoreVolume := λ _ _ s,
    match restoreReplies s with
    | [] => (inr tt, s)
    | r :: rest => (r, set_restoreReplies rest s)
    end
}.

Definition snapshotInstance (inst : Instance) (name : string) : Instance :=
  mkInstance (inst_Type inst) (inst_Project inst) name true
    (inst_ExpandedDevices inst) (inst_ExpandedConfig inst).

Definition volumeTypeOf (t : InstanceType) : VolumeType :=
  match t with
  | InstanceTypeVM => VolumeTypeVM
  | _ => VolumeTypeContainer
  end.

#[global] Instance host : Host State := {
  os_IsDir := λ path s, bool_decide (path ∈ paths s);
  os_PathExists := λ path s, bool_decide (path ∈ paths s);
  os_MkdirAll := λ path s, (inr tt, set_paths (λ l, (l ++ [path])%list) s);
  os_Remove := λ path s, (inr tt, set_paths (filter (λ q, q ≠ path)) s);
  os_RemoveAll := λ path s, (inr tt, set_paths (filter (λ q, q ≠ path)) s);
  os_Symlink := λ _ link s, (inr tt, set_paths (λ l, (l ++ [link])%list) s);
  inst_IsRunning := λ inst s, bool_decide (inst_Name inst ∈ running s);
  inst_Snapshots := λ inst s,
    (inr (snapshotInstance inst <$>
            ((λ r, sv_Name (rec_vol r)) <$>
               filter (λ r, is_snapshot_of (inst_Project inst) (inst_Name inst)
                              (volumeTypeOf (inst_Type inst)) r = true) (records s))), s);
  inst_Delete := λ inst _ s,
    if bool_decide (inst_Name inst ∈ busySnapshots s)
    then (inl (Errorf "Snapshot is busy"), s)
    else db_write (λ s', (inr tt,
           set_records (filter (λ r, is_record (inst_Project inst) (inst_Name inst)
                                       (volumeTypeOf (inst_Type inst)) r = false))
             (set_onDisk (filter (λ v, v ≠ (volumeTypeOf (inst_Type inst), inst_Name inst))) s'))) s;
  inst_DeferTemplateApply := λ _ _ s, (inr tt, s);
  host_VolumeUsedByInstanceDevices := λ _ _ _ s, (inr [], s);
  host_InstanceLoad := λ inst s, (inr inst, s);
  locking_Lock := λ _ s, (inr tt, s);
  locking_Unlock := λ _ s, s;
  events_SendLifecycle := λ _ _ _ s, s;
  conn_ReadAll := λ s, (inr "", s);
  conn_Write := λ _ s, (inr tt, s);
  conn_Close := λ s, (inr tt, s)
}.

(** The helpers: storage names are the names themselves, and [hdr] is
    the index header that the bytes read from the connection decode to. *)
Definition helpers (hdr : MigrationInfo) : Helpers := {|
  InstanceTypeToVolumeType := λ t,
    match t with
    | InstanceTypeContainer => inr VolumeTypeContainer
    | InstanceTypeVM => inr VolumeTypeVM
    | InstanceTypeAny => inl (Errorf "Invalid instance type")
    end;
  InstanceContentType := λ inst,
    if bool_decide (inst_Type inst = InstanceTypeVM) then ContentTypeBlock else ContentTypeFS;
  VolumeTypeToDBType := λ t,
    inr match t with
        | VolumeTypeContainer => 0 | VolumeTypeImage => 1
        | VolumeTypeCustom => 2 | VolumeTypeVM => 3
        end;
  StoragePoolVolumeTypeImage := 1;
  VolumeContentTypeNameToContentType := λ name,
    if bool_decide (name = "filesystem") then inr 0
    else if bool_decide (name = "block") then inr 1
    else if bool_decide (name = "iso") then inr 2
    else inl (Errorf "Invalid volume content type name");
  VolumeDBContentTypeToContentType := λ n,
    if bool_decide (n = 0) then inr ContentTypeFS
    else if bool_decide (n = 1) then inr ContentTypeBlock
    else if bool_decide (n = 2) then inr ContentTypeISO
    else inl (Errorf "Invalid volume content type");
  StoragePoolStateToAPIStatus := λ state,
    if bool_decide (state = 0) then "Pending"
    else if bool_decide (state = 1) then "Created"
    else if bool_decide (state = 2) then "Errored"
    else "Unknown";
  project_Instance := λ project name, name;
  project_StorageVolume := λ project name, name;
  InstancePath := λ _ project name isSnapshot,
    (if isSnapshot then "/snapshots/" else "/instances/") +:+ name;
  GetPoolMountPath := λ pool, "/storage-pools/" +:+ pool;
  GetVolumeMountPath := λ pool _ name, "/storage-pools/" +:+ pool +:+ "/" +:+ name;
  GetVolumeSnapshotDir := λ pool _ name, "/storage-pools/" +:+ pool +:+ "/snapshots/" +:+ name;
  VarPath := λ parts, String.concat "/" parts;
  BaseDirectories := λ t,
    match t with
    | VolumeTypeContainer => ["containers"; "containers-snapshots"]
    | VolumeTypeVM => ["virtual-machines"; "virtual-machines-snapshots"]
    | VolumeTypeImage => ["images"]
    | VolumeTypeCustom => ["custom"; "custom-snapshots"]
    end;
  filepath_Join := λ a c, a +:+ "/" +:+ c;
  OperationLockName := λ op pool _ _ name, op +:+ "/" +:+ pool +:+ "/" +:+ name;
  GetRootDiskDevice := λ devices,
    match devices !! "root" with
    | Some conf => inr ("root", conf)
    | None => inl (Errorf "No root device could be found")
    end;
  IsVMBlock := λ vol,
    bool_decide (vol_type vol = VolumeTypeVM) && bool_decide (vol_contentType vol = ContentTypeBlock);
  IsBlockBacked := λ _, false;
  NewVMBlockFilesystemVolume := λ vol,
    mkVolume (vol_pool vol) (vol_type vol) ContentTypeFS (vol_name vol) (vol_config vol)
      (vol_poolConfig vol) (vol_hasSource vol);
  ConfigSize := λ vol, cfg (vol_config vol) "size";
  ConfigSizeFromSource := λ vol _, inr (cfg (vol_config vol) "size");
  MountPath := λ vol, "/storage-pools/" +:+ vol_pool vol +:+ "/" +:+ vol_name vol;
  json_Unmarshal_Info := λ _, inr hdr;
  json_Marshal_InfoResponse := λ _ _, inr "{}";
  Sprintf_d := λ _, "0";
  os_IsExist := λ _, false
|}.

(** A pool [p1] that is created everywhere, a container [c1] with a root
    disk, and an empty state. *)
Definition pool : lxdBackend :=
  mkBackend 1 (mkStoragePool "" "Created" ∅) "p1" {[1 := 1]}.

Definition pendingPool : lxdBackend :=
  mkBackend 1 (mkStoragePool "" "Pending" ∅) "p1" {[1 := 0]}.

Definition container (name : string) : Instance :=
  mkInstance InstanceTypeContainer "default" name false {["root" := ∅]} ∅.

Definition vm (name : string) : Instance :=
  mkInstance InstanceTypeVM "default" name false {["root" := ∅]} ∅.

Definition empty : State :=
  mkState [] [] [] [] [] (inr tt) (inr tt) (inr true) [] None.

Definition volumeRecord (t : VolumeType) (name : string) (config : Config) : Record_ :=
  mkRecord "default" t (mkStorageVolume name "" config "filesystem").

Definition world (s : State) : World State := mkWorld s ∅ [].

(** Every project may create volumes, and the data can be rewound. *)
#[global] Instance volumeImport : VolumeImport State := {
  project_AllowVolumeCreation := λ _ _ _ s, (inr tt, s);
  srcData_Seek := λ s, (inr tt, s)
}.

#[global] Instance noHeaderHelpers : Helpers := helpers (mkMigrationInfo None).

(** A pool that is created but whose last mount failed. *)
Definition unavailableWorld (s : State) : World State := mkWorld s {["p1"]} [].

(** A virtual machine [v1] with its block volume. *)
Definition vmState : State :=
  mkState [mkRecord "default" VolumeTypeVM (mkStorageVolume "v1" "" ∅ "block")]
    [(VolumeTypeVM, "v1")] [] [] [] (inr tt) (inr tt) (inr true) [] None.

(** The image [abc] is cached on the pool; the driver answers a copy
    with [copy] and a quota request with [quota]. *)
Definition imageState (copy quota : reply unit) : State :=
  mkState [volumeRecord VolumeTypeImage "abc" ∅] [(VolumeTypeImage, "abc")] [] [] []
    quota copy (inr true) [] None.

(** A custom volume [cv1] and a container [c1], each with snapshots
    [a], [b] and [c]; the driver answers the first restore with the
    request to delete [b] and [c] first. *)
Definition customVolumeState : State :=
  mkState
    [volumeRecord VolumeTypeCustom "cv1" ∅; volumeRecord VolumeTypeCustom "cv1/a" ∅;
     volumeRecord VolumeTypeCustom "cv1/b" ∅; volumeRecord VolumeTypeCustom "cv1/c" ∅]
    [(VolumeTypeCustom, "cv1"); (VolumeTypeCustom, "cv1/a"); (VolumeTypeCustom, "cv1/b");
     (VolumeTypeCustom, "cv1/c")]
    [] [] [inl (ErrDeleteSnapshots ["b"; "c"])] (inr tt) (inr tt) (inr true) [] None.

Definition containerState : State :=
  mkState
    [volumeRecord VolumeTypeContainer "c1" {["size" := "1GiB"]};
     volumeRecord VolumeTypeContainer "c1/a" {["size" := "2GiB"]};
     volumeRecord VolumeTypeContainer "c1/b" ∅; volumeRecord VolumeTypeContainer "c1/c" ∅]
    [(VolumeTypeContainer, "c1"); (VolumeTypeContainer, "c1/a"); (VolumeTypeContainer, "c1/b");
     (VolumeTypeContainer, "c1/c")]
    [] [] [inl (ErrDeleteSnapshots ["b"; "c"])] (inr tt) (inr tt) (inr true) [] None.

(** The names and the [size] of the volume records. *)
Definition recordSizes (s : State) : list (string * option string) :=
  (λ r, (sv_Name (rec_vol r), sv_Config (rec_vol r) !! "size")) <$> records s.


(** A container [c1] with the snapshots [s1] and [s2]. *)
Definition snapshotsState : State :=
  mkState
    [volumeRecord VolumeTypeContainer "c1" ∅; volumeRecord VolumeTypeContainer "c1/s1" ∅;
     volumeRecord VolumeTypeContainer "c1/s2" ∅]
    [(VolumeTypeContainer, "c1"); (VolumeTypeContainer, "c1/s1"); (VolumeTypeContainer, "c1/s2")]
    [] [] [] (inr tt) (inr tt) (inr true) [] None.

Definition recordNames (s : State) : list string := (λ r, sv_Name (rec_vol r)) <$> records s.


(** The custom volume [cv1] with its snapshots, of which [b] cannot be
    removed from the storage device. *)
Definition busySnapshotState : State :=
  mkState (records customVolumeState) (onDisk customVolumeState) [] [] [] (inr tt) (inr tt)
    (inr true) ["cv1/b"] None.



(** A migration whose index header carries a config without snapshot
    entries while the arguments name one snapshot. *)
Definition headerWithoutSnapshots : MigrationInfo :=
  mkMigrationInfo (Some (mkBackupConfig None [])).

Definition oneSnapshotArgs : VolumeTargetArgs :=
  mkTargetArgs 1 "" "" None ["snap0"] MigrationFSType_RSYNC false 0 "".

End Sim.

(** * Properties *)

(** ** Operations that leave the revert chain and the unavailable set alone *)


Section Plain.
Context {S : Type}.

Lemma plain_ret {A} (a : A) : plain (ret (S:=S) a).
Proof. by intros rv w. Qed.

Lemma plain_fail {A} e : plain (fail (S:=S) (A:=A) e).
Proof. by intros rv w. Qed.

Lemma plain_panic {A} msg : plain (panic (S:=S) (A:=A) msg).
Proof. by intros rv w. Qed.

Lemma plain_lift {A} (r : reply A) : plain (lift (S:=S) r).
Proof. by intros rv w. Qed.

Lemma plain_read {A} (f : S → A) : plain (read f).
Proof. by intros rv w. Qed.

Lemma plain_call {A} c (f : S → reply A * S) : plain (call c f).
Proof. by intros rv w. Qed.

Lemma plain_call_ c (f : S → S) : plain (call_ c f).
Proof. apply plain_call. Qed.

Lemma plain_bind {A B} (m : M S A) (k : A → M S B) :
  plain m → (∀ a, plain (k a)) → plain (bind m k).
Proof.
  intros Hm Hk rv w. unfold bind. specialize (Hm rv w).
  destruct (m rv w) as [[[a|e|msg] rv'] w']; simpl in *; destruct Hm as [-> <-]; auto.
  apply Hk.
Qed.

Lemma plain_try {A} (m : M S A) : plain m → plain (try m).
Proof.
  intros Hm rv w. unfold try. specialize (Hm rv w).
  by destruct (m rv w) as [[[a|e|msg] rv'] w'].
Qed.

Lemma plain_when (c : bool) (m : M S unit) : plain m → plain (when c m).
Proof. destruct c; [done | intros _; apply plain_ret]. Qed.

Lemma plain_forM_ {A} (xs : list A) (f : A → M S unit) :
  (∀ x, plain (f x)) → plain (forM_ xs f).
Proof.
  intros Hf. induction xs as [|x xs IH]; simpl.
  - apply plain_ret.
  - apply plain_bind; auto.
Qed.

Lemma plain_if {A} (c : bool) (m1 m2 : M S A) :
  plain m1 → plain m2 → plain (if c then m1 else m2).
Proof. by destruct c. Qed.

Lemma plain_run {A} (m : M S A) rv w :
  plain m → ∃ r w', m rv w = (r, rv, w') ∧ unavailablePools w' = unavailablePools w.
Proof.
  intros Hm. specialize (Hm rv w). destruct (m rv w) as [[r rv'] w']. simpl in *.
  destruct Hm as [-> Hu]. eauto.
Qed.

Lemma plain_hook {A} (m : M S A) w :
  plain m → unavailablePools (hook m w) = unavailablePools w.
Proof. intros Hm. apply Hm. Qed.

End Plain.

Create HintDb plain discriminated.
#[export] Hint Resolve plain_ret plain_fail plain_panic plain_lift plain_read plain_call
  plain_call_ : plain.

(** The structure of an operation is followed down to its leaves, which
    are the interface calls and the operations with a lemma in the hint
    database. *)
Ltac solve_plain :=
  repeat first
    [ solve [auto 1 with plain nocore]
    | apply plain_bind; [| intros ?]
    | apply plain_try
    | apply plain_when
    | apply plain_forM_; intros ?
    | progress cbv beta zeta
    | match goal with
      | |- plain (match ?x with _ => _ end) => destruct x
      end ].

(** The reply of the interface call that the goal inspects is split into
    its error or value and the state it leaves. *)
Ltac destruct_reply :=
  match goal with
  | |- context [ fst ?x ] =>
      lazymatch type of x with
      | (reply _ * _)%type =>
          let s := fresh "s" in
          let e := fresh "err" in
          let a := fresh "a" in
          destruct x as [[e|a] s] eqn:?; simpl
      end
  end.

(** One step of a run: the next [plain] operation applied to a chain and
    a state is replaced by its outcome and final state. *)
Ltac plain_step :=
  match goal with
  | |- context [ match ?m ?rv ?w with _ => _ end ] =>
      let H := fresh "Hplain" in
      assert (H : plain m) by solve_plain;
      let r := fresh "r" in
      let w' := fresh "w" in
      let Hu := fresh "Hu" in
      destruct (plain_run m rv w H) as (r & w' & -> & Hu); clear H;
      lazy beta iota zeta
  end.

Section PoolFacts.
Context {S : Type} `{!Driver S, !Cluster S, !Host S, !Helpers}.
Implicit Types (b : lxdBackend) (w : World S).

Lemma plain_Unmount b : plain (Unmount b).
Proof. apply plain_call. Qed.

Lemma plain_createStorageStructure b path : plain (createStorageStructure b path).
Proof. unfold createStorageStructure. solve_plain. Qed.

#[local] Hint Resolve plain_Unmount plain_createStorageStructure : plain.

(** C8: after [Mount] returns an error the pool's name is in
    [unavailablePools], and after it returns without error the name is
    not in it. *)
Theorem Mount_marks_pool b w :
  match run (Mount b) w with
  | (Ok _, w') => b_name b ∉ unavailablePools w'
  | (Fail _, w') => b_name b ∈ unavailablePools w'
  | (Panic _, _) => True
  end.
Proof.
  unfold run, Mount, with_revert.
  unfold bind at 1, revert_Add at 1. unfold bind at 1, read at 1.
  unfold bind at 1. plain_step.
  destruct r as [[]|e|msg]; [| simpl; set_solver | done].
  unfold bind at 1. plain_step.
  destruct r as [ourMount|e|msg]; [| simpl; set_solver | done].
  unfold bind at 1.
  assert (∃ rv, when ourMount (revert_Add (hook (Unmount b))) [markUnavailable (b_name b)] w1
                = (Ok tt, rv, w1)
                ∧ ∀ w', b_name b ∈ unavailablePools (revert_Fail rv w')) as (rv & -> & Hrv).
  { destruct ourMount; simpl; eexists; (split; [reflexivity|]); intros w'; simpl;
      set_solver. }
  unfold bind at 1. plain_step.
  destruct r as [[]|e|msg]; [| simpl; apply Hrv | simpl; done].
  simpl. set_solver.
Qed.

End PoolFacts.

(** ** Pool readiness *)

Section Ready.
Context {S : Type} `{!Driver S, !Cluster S, !Host S, !Helpers}.
Implicit Types (b : lxdBackend) (w : World S).


Lemma isStatusReady_not_ready b rv w :
  Status b = StoragePoolStatusPending ∨ b_name b ∈ unavailablePools w →
  isStatusReady b rv w = (Fail (notReadyError b), rv, w).
Proof.
  intros Hnot. unfold isStatusReady, notReadyError.
  case_bool_decide as Hp; [done|].
  destruct Hnot as [|Hin]; [done|].
  unfold bind, getWorld, LocalStatus, IsAvailable.
  rewrite (bool_decide_false (b_name b ∉ unavailablePools w)) by (intros Hn; by apply Hn).
  done.
Qed.

Lemma guarded_not_ready {A} b (rest : M S A) w :
  Status b = StoragePoolStatusPending ∨ b_name b ∈ unavailablePools w →
  run (isStatusReady b ;; rest) w = (Fail (notReadyError b), w).
Proof.
  intros Hnot. unfold run, bind. by rewrite isStatusReady_not_ready.
Qed.

End Ready.

(** ** Quota of a VM and of its config filesystem *)

Section Quota.
Context {S : Type} `{!Driver S, !Cluster S, !Host S, !Helpers}.
Implicit Types (b : lxdBackend) (w : World S).

Lemma companionQuotaSize_code size vmStateSize defaultSize :
  (if bool_decide (vmStateSize = "") && bool_decide (size ≠ "")
   then defaultSize else vmStateSize)
  = companionQuotaSize size vmStateSize defaultSize.
Proof. unfold companionQuotaSize. repeat case_bool_decide; simpl; congruence. Qed.

(** C7: on a VM block volume, [SetInstanceQuota] applies the main size to
    the primary volume and then, when that succeeded, a quota to the
    config-filesystem companion whose size is the explicit [vmStateSize],
    else the driver's default when the main size is not empty, else
    empty. *)
Theorem SetInstanceQuota_vm_block b inst size vmStateSize w volType dbVol s1 :
  InstanceTypeToVolumeType (inst_Type inst) = inr volType →
  db_VolumeDBGet b (inst_Project inst) (inst_Name inst) volType (ext w) = (inr dbVol, s1) →
  let vol := GetVolume b volType (InstanceContentType inst)
               (project_Instance (inst_Project inst) (inst_Name inst)) (sv_Config dbVol) in
  IsVMBlock vol = true →
  let fsVol := NewVMBlockFilesystemVolume vol in
  let stateSize :=
    companionQuotaSize size vmStateSize (DefaultVMBlockFilesystemSize drv_Info) in
  let main := drv_SetVolumeQuota vol size false s1 in
  let companion := drv_SetVolumeQuota fsVol stateSize false main.2 in
  let get := (CVolumeDBGet (inst_Project inst) (inst_Name inst) volType, None) in
  run (SetInstanceQuota b inst size vmStateSize) w =
    match main.1 with
    | inl err =>
        (Fail err,
         mkWorld main.2 (unavailablePools w)
           (calls w ++ [get] ++ [(CSetVolumeQuota vol size false, Some err)]))
    | inr _ =>
        (of_reply companion.1,
         mkWorld companion.2 (unavailablePools w)
           (calls w ++ [get] ++ [(CSetVolumeQuota vol size false, None)]
              ++ [(CSetVolumeQuota fsVol stateSize false, outcome companion.1)]))
    end.
Proof.
  intros HvolType Hget vol HvmBlock fsVol stateSize main companion get.
  unfold SetInstanceQuota, run, bind, lift.
  rewrite HvolType. simpl. unfold VolumeDBGet, call. rewrite Hget. simpl.
  fold vol. rewrite HvmBlock. simpl.
  rewrite companionQuotaSize_code. fold fsVol stateSize main.
  destruct (main.1) as [err|[]] eqn:Hmain; simpl.
  - by rewrite <- !app_assoc.
  - fold companion. destruct (companion.1) as [err|[]]; simpl; by rewrite <- !app_assoc.
Qed.

End Quota.

(** ** Operations that cannot panic *)


Section NoPanic.
Context {S : Type}.

Lemma nopanic_ret {A} (a : A) : nopanic (ret (S:=S) a).
Proof. by intros rv w msg. Qed.

Lemma nopanic_fail {A} e : nopanic (fail (S:=S) (A:=A) e).
Proof. by intros rv w msg. Qed.

Lemma nopanic_lift {A} (r : reply A) : nopanic (lift (S:=S) r).
Proof. intros rv w msg. by destruct r. Qed.

Lemma nopanic_read {A} (f : S → A) : nopanic (read f).
Proof. by intros rv w msg. Qed.

Lemma nopanic_call {A} c (f : S → reply A * S) : nopanic (call c f).
Proof. intros rv w msg. unfold call. simpl. by destruct (f (ext w)).1. Qed.

Lemma nopanic_call_ c (f : S → S) : nopanic (call_ c f).
Proof. apply nopanic_call. Qed.

Lemma nopanic_getWorld : nopanic (getWorld (S:=S)).
Proof. by intros rv w msg. Qed.

Lemma nopanic_modify (f : World S → World S) : nopanic (modify f).
Proof. by intros rv w msg. Qed.

Lemma nopanic_revert_Add (h : World S → World S) : nopanic (revert_Add h).
Proof. by intros rv w msg. Qed.

Lemma nopanic_revert_Success : nopanic (revert_Success (S:=S)).
Proof. by intros rv w msg. Qed.

Lemma nopanic_bind {A B} (m : M S A) (k : A → M S B) :
  nopanic m → (∀ a, nopanic (k a)) → nopanic (bind m k).
Proof.
  intros Hm Hk rv w msg. unfold bind. specialize (Hm rv w).
  destruct (m rv w) as [[[a|e|msg'] rv'] w']; simpl in *; [apply Hk|done|].
  by destruct (Hm msg').
Qed.

Lemma nopanic_try {A} (m : M S A) : nopanic m → nopanic (try m).
Proof.
  intros Hm rv w msg. unfold try. specialize (Hm rv w).
  destruct (m rv w) as [[[a|e|msg'] rv'] w']; simpl in *; [done..|].
  by destruct (Hm msg').
Qed.

Lemma nopanic_when (c : bool) (m : M S unit) : nopanic m → nopanic (when c m).
Proof. destruct c; [done | intros _; apply nopanic_ret]. Qed.

Lemma nopanic_if {A} (c : bool) (m1 m2 : M S A) :
  nopanic m1 → nopanic m2 → nopanic (if c then m1 else m2).
Proof. by destruct c. Qed.

Lemma nopanic_forM_ {A} (xs : list A) (f : A → M S unit) :
  (∀ x, nopanic (f x)) → nopanic (forM_ xs f).
Proof.
  intros Hf. induction xs as [|x xs IH]; simpl.
  - apply nopanic_ret.
  - apply nopanic_bind; auto.
Qed.

Lemma nopanic_with_revert {A} (body : M S A) : nopanic body → nopanic (with_revert body).
Proof.
  intros Hb rv w msg. unfold with_revert. specialize (Hb [] w msg).
  by destruct (body [] w) as [[r rv'] w'].
Qed.

Lemma nopanic_with_defer {A} cleanup (body : M S A) :
  nopanic body → nopanic (with_defer cleanup body).
Proof.
  intros Hb rv w msg. unfold with_defer. specialize (Hb rv w msg).
  by destruct (body rv w) as [[r rv'] w'].
Qed.

End NoPanic.

Create HintDb nopanic discriminated.
#[export] Hint Resolve nopanic_ret nopanic_fail nopanic_lift nopanic_read nopanic_call
  nopanic_call_ nopanic_getWorld nopanic_modify
  nopanic_revert_Add nopanic_revert_Success : nopanic.

Ltac solve_nopanic :=
  repeat first
    [ solve [auto 1 with nopanic nocore]
    | apply nopanic_bind; [| intros ?]
    | apply nopanic_try
    | apply nopanic_when
    | apply nopanic_forM_; intros ?
    | apply nopanic_with_revert
    | apply nopanic_with_defer
    | progress cbv beta zeta
    | match goal with
      | |- nopanic (match ?x with _ => _ end) => destruct x
      end ].

(** ** The snapshot loop of [CreateInstanceFromMigration] *)

Section Migration.
Context {S : Type} `{!Driver S, !Cluster S, !Host S, !Helpers}.
Implicit Types (b : lxdBackend) (w : World S) (inst : Instance).

(** The guard of line 1930 lets the positions [len] and [len + 1]
    through, and the indexing that follows panics there. *)
Lemma guard_line1930_past_the_end (config : BackupConfig) (i : Z) snapName rv w :
  let len := Z.of_nat (length (bc_VolumeSnapshots config)) in
  i = len ∨ i = len + 1 →
  headerSnapshot guard_line1930 (mkMigrationInfo (Some config)) i snapName rv w
  = (Panic "index out of range", rv, w).
Proof.
  intros len Hi. unfold headerSnapshot, guard_line1930. simpl. fold len.
  rewrite bool_decide_true by lia.
  unfold bind, index. fold len. by rewrite bool_decide_false by lia.
Qed.

Lemma nopanic_index_in_bounds {A} (l : list A) (i : Z) :
  (0 ≤ i < Z.of_nat (length l))%Z → nopanic (index (S:=S) l i).
Proof.
  intros Hi rv w msg. unfold index. rewrite bool_decide_true by done.
  destruct (l !! Z.to_nat i) eqn:Hl; [done|].
  apply lookup_ge_None in Hl. lia.
Qed.

Lemma nopanic_headerSnapshot_bounds (srcInfo : MigrationInfo) (i : Z) snapName :
  (0 ≤ i)%Z → nopanic (headerSnapshot (S:=S) guard_bounds srcInfo i snapName).
Proof.
  intros Hi. unfold headerSnapshot, guard_bounds.
  destruct (mi_Config srcInfo) as [config|]; [|apply nopanic_ret].
  case_bool_decide; [|apply nopanic_ret].
  apply nopanic_bind; [by apply nopanic_index_in_bounds|].
  intros [hs|]; solve_nopanic.
Qed.

Lemma nopanic_createSnapshotRecords_bounds b inst srcInfo volType contentType desc
    (snapshots : list string) :
  ∀ (i : Z) vol, (0 ≤ i)%Z →
    nopanic (createSnapshotRecords guard_bounds b inst srcInfo volType contentType desc
               i snapshots vol).
Proof.
  induction snapshots as [|snapName rest IH]; intros i vol Hi; simpl.
  - apply nopanic_ret.
  - apply nopanic_bind; [by apply nopanic_headerSnapshot_bounds|].
    intros hdr. apply nopanic_bind.
    { destruct hdr; unfold VolumeDBCreate; solve_nopanic. }
    intros vol'. apply nopanic_bind; [apply nopanic_revert_Add|].
    intros _. apply IH. lia.
Qed.

Lemma nopanic_mapM {A B} (f : A → M S B) (xs : list A) :
  (∀ x, nopanic (f x)) → nopanic (mapM f xs).
Proof.
  intros Hf. induction xs as [|x xs IH]; simpl.
  - apply nopanic_ret.
  - apply nopanic_bind; [done|]. intros y. apply nopanic_bind; [done|].
    intros ys. apply nopanic_ret.
Qed.

Lemma nopanic_isStatusReady b : nopanic (isStatusReady b).
Proof. unfold isStatusReady. solve_nopanic. Qed.

Lemma nopanic_VolumeDBGet_orNil b project name volType :
  nopanic (VolumeDBGet_orNil b project name volType).
Proof. unfold VolumeDBGet_orNil, VolumeDBGet. solve_nopanic. Qed.

Lemma nopanic_removeSymlinkIfExists path : nopanic (removeSymlinkIfExists path).
Proof. unfold removeSymlinkIfExists. solve_nopanic. Qed.

Lemma nopanic_createSymlink target link : nopanic (createSymlink target link).
Proof. unfold createSymlink. solve_nopanic. Qed.

#[local] Hint Resolve nopanic_isStatusReady nopanic_VolumeDBGet_orNil
  nopanic_removeSymlinkIfExists nopanic_createSymlink nopanic_mapM : nopanic.

Lemma nopanic_ensureInstanceSymlink b t project name mountPath :
  nopanic (ensureInstanceSymlink b t project name mountPath).
Proof. unfold ensureInstanceSymlink. solve_nopanic. Qed.

Lemma nopanic_ensureInstanceSnapshotSymlink b t project name :
  nopanic (ensureInstanceSnapshotSymlink b t project name).
Proof. unfold ensureInstanceSnapshotSymlink. solve_nopanic. Qed.

Lemma nopanic_applyInstanceRootDiskOverrides b inst vol :
  nopanic (applyInstanceRootDiskOverrides (S:=S) b inst vol).
Proof. unfold applyInstanceRootDiskOverrides. solve_nopanic. Qed.

Lemma nopanic_migrationIndexHeaderReceive b version refresh :
  nopanic (migrationIndexHeaderReceive b version refresh).
Proof. unfold migrationIndexHeaderReceive. solve_nopanic. Qed.

Lemma nopanic_DeleteImage b fingerprint : nopanic (DeleteImage b fingerprint).
Proof. unfold DeleteImage, locked, VolumeDBGet, VolumeDBDelete, SendLifecycle. solve_nopanic. Qed.

#[local] Hint Resolve nopanic_DeleteImage nopanic_ensureInstanceSymlink
  nopanic_ensureInstanceSnapshotSymlink nopanic_applyInstanceRootDiskOverrides
  nopanic_migrationIndexHeaderReceive : nopanic.

Lemma nopanic_EnsureImage b fingerprint : nopanic (EnsureImage b fingerprint).
Proof.
  unfold EnsureImage, locked, EnsureImage_lookup, EnsureImage_existing, EnsureImage_create,
    VolumeDBCreate, UpdateStoragePoolVolume.
  solve_nopanic.
Qed.

#[local] Hint Resolve nopanic_EnsureImage : nopanic.

Lemma nopanic_migrationPreFiller b inst args isRemoteClusterMove :
  nopanic (migrationPreFiller b inst args isRemoteClusterMove).
Proof. unfold migrationPreFiller. solve_nopanic. Qed.

#[local] Hint Resolve nopanic_migrationPreFiller : nopanic.

Lemma nopanic_CreateInstanceFromMigration_bounds b inst args :
  nopanic (CreateInstanceFromMigration_with guard_bounds b inst args).
Proof.
  unfold CreateInstanceFromMigration_with.
  assert (∀ srcInfo volType contentType desc vol,
    nopanic (createSnapshotRecords guard_bounds b inst srcInfo volType contentType desc
               0 (args_Snapshots args) vol)) as Hloop
    by (intros; by apply nopanic_createSnapshotRecords_bounds).
  unfold VolumeDBCreate, VolumeDBGet.
  repeat first [progress solve_nopanic | apply nopanic_mapM; intros ?].
Qed.

End Migration.

Lemma nopanic_run {S A} (m : M S A) w msg : nopanic m → (run m w).1 ≠ Panic msg.
Proof.
  intros Hm. unfold run. specialize (Hm [] w msg).
  by destruct (m [] w) as [[r rv] w'].
Qed.

(** C10: the guard [len(srcInfo.Config.VolumeSnapshots) >= i-1] of the
    snapshot-record loop of [CreateInstanceFromMigration] does not keep
    [i] inside the list: there is a migration whose [args.Snapshots] is
    longer than the header's list and whose run panics with an index out
    of range; in general the guard passes at the positions [len] and
    [len + 1], where the indexing panics; and with the guard
    [i < len(srcInfo.Config.VolumeSnapshots)] no run of the function
    panics. *)
Theorem migration_snapshot_guard_out_of_range :
  ((length (bc_VolumeSnapshots (mkBackupConfig None []))
    < length (args_Snapshots Sim.oneSnapshotArgs))%nat
   ∧ (run (CreateInstanceFromMigration (H := Sim.helpers Sim.headerWithoutSnapshots)
             Sim.pool (Sim.container "c1") Sim.oneSnapshotArgs)
          (Sim.world Sim.empty)).1
     = Panic "index out of range")
  ∧ (∀ (S : Type) (config : BackupConfig) (snapName : string) rv (w : World S),
       let len := Z.of_nat (length (bc_VolumeSnapshots config)) in
       headerSnapshot guard_line1930 (mkMigrationInfo (Some config)) len snapName rv w
       = (Panic "index out of range", rv, w)
       ∧ headerSnapshot guard_line1930 (mkMigrationInfo (Some config)) (len + 1) snapName rv w
         = (Panic "index out of range", rv, w))
  ∧ (∀ (S : Type) (D : Driver S) (C : Cluster S) (Ho : Host S) (H : Helpers)
       (b : lxdBackend) (inst : Instance) (args : VolumeTargetArgs) (w : World S) msg,
       (run (CreateInstanceFromMigration_with guard_bounds b inst args) w).1 ≠ Panic msg).
Proof.
  split; [|split].
  - split; [simpl; lia | by vm_compute].
  - intros S config snapName rv w len.
    split; apply guard_line1930_past_the_end; auto.
  - intros. apply nopanic_run, nopanic_CreateInstanceFromMigration_bounds.
Qed.

(** ** Instances from images *)

Section FromImage.
Context {S : Type} `{!Driver S, !Cluster S, !Host S, !Helpers}.
Implicit Types (b : lxdBackend) (w : World S) (vol imgVol : Volume).

(** Lines 1772-1793 by cases of the driver's reply to the copy. *)
Lemma createVolumeFromImageVolume_cases b fingerprint vol imgVol w :
  let volCopy := NewVolumeCopy vol [] in
  let imgVolCopy := NewVolumeCopy imgVol [] in
  let copy := drv_CreateVolumeFromCopy volCopy imgVolCopy false (ext w) in
  let copied := λ err,
    mkWorld copy.2 (unavailablePools w)
      (calls w ++ [(CCreateVolumeFromCopy volCopy imgVolCopy false, err)]) in
  let unpack := drv_CreateVolume vol (Some (imageFiller fingerprint)) copy.2 in
  run (createVolumeFromImageVolume b fingerprint vol imgVol) w =
    match copy.1 with
    | inr _ => (Ok tt, copied None)
    | inl err =>
        if is_ErrCannotBeShrunk err
        then (match unpack.1 with inl e => Fail e | inr _ => Ok tt end,
              mkWorld unpack.2 (unavailablePools w)
                (calls (copied (Some err))
                 ++ [(CCreateVolume vol (Some (imageFiller fingerprint)), outcome unpack.1)]))
        else (Fail err, copied (Some err))
    end.
Proof.
  intros volCopy imgVolCopy copy copied unpack.
  unfold createVolumeFromImageVolume, run, bind, try, call. simpl.
  fold volCopy imgVolCopy copy.
  destruct (copy.1) as [err|[]] eqn:Hcopy; simpl; [|done].
  destruct (is_ErrCannotBeShrunk err); simpl; [|done].
  fold unpack. by destruct (unpack.1) as [e|n].
Qed.

End FromImage.

(** ** The cached image volume *)

Section Image.
Context {S : Type} `{!Driver S, !Cluster S, !Host S, !Helpers}.
Implicit Types (b : lxdBackend) (w : World S) (vol imgVol : Volume).

Lemma isStatusReady_ready b rv w :
  Status b ≠ StoragePoolStatusPending →
  LocalStatus b w ≠ StoragePoolStatusUnvailable →
  isStatusReady b rv w = (Ok tt, rv, w).
Proof.
  intros Hp Hl. unfold isStatusReady. rewrite bool_decide_false by done.
  unfold bind, getWorld. by rewrite bool_decide_false by done.
Qed.

(** Lines 3428-3436: the DB record comes first, and when it is created
    the volume is created next, with the image-unpack filler. *)
Lemma EnsureImage_create_order b fingerprint contentType imgVol w :
  let create := db_VolumeDBCreate b ProjectDefaultName fingerprint "" VolumeTypeImage false
                  (vol_config imgVol) 0 contentType false false (ext w) in
  let created :=
    CVolumeDBCreate ProjectDefaultName fingerprint "" VolumeTypeImage false
      (vol_config imgVol) 0 contentType false false in
  match create.1 with
  | inl err =>
      run (EnsureImage_create b fingerprint contentType imgVol) w
      = (Fail err, mkWorld create.2 (unavailablePools w) (calls w ++ [(created, Some err)]))
  | inr config =>
      ∃ o tr,
        calls (run (EnsureImage_create b fingerprint contentType imgVol) w).2
        = calls w ++ [(created, None)]
          ++ [(CCreateVolume (vol_with_config imgVol config) (Some (imageFiller fingerprint)), o)]
          ++ tr
  end.
Proof.
  intros create created. subst create created.
  destruct_reply.
  - unfold EnsureImage_create, run, with_revert, bind, VolumeDBCreate, call.
    by rewrite Heqp.
  - unfold EnsureImage_create, run, with_revert.
    unfold bind at 1. unfold VolumeDBCreate at 1, call at 1. rewrite Heqp. simpl.
    unfold bind at 1, revert_Add at 1. unfold bind at 1, call at 1. simpl.
    destruct_reply.
    { do 2 eexists. unfold hook, VolumeDBDelete, call. simpl.
      rewrite <- !app_assoc. simpl. reflexivity. }
    unfold bind at 1, revert_Add at 1.
    unfold bind at 1.
    match goal with
    | |- context [ when ?c ?m ?rv ?w0 ] =>
        destruct (when c m rv w0) as [[r rv'] w'] eqn:Hwhen;
        assert (rv' = rv ∧ ∃ tr, calls w' = calls w0 ++ tr) as [-> [tr Htr]]
    end.
    { revert Hwhen. unfold when. case_bool_decide.
      - unfold UpdateStoragePoolVolume, call. intros [= <- <- <-]. split; [done|].
        simpl. eauto.
      - unfold ret. intros [= <- <- <-]. split; [done|]. exists []. by rewrite app_nil_r. }
    simpl in Htr.
    destruct r as [[]|e|msg]; simpl.
    + do 2 eexists. rewrite Htr. rewrite <- !app_assoc. simpl. reflexivity.
    + unfold hook, VolumeDBDelete, call. simpl. rewrite Htr. do 2 eexists.
      rewrite <- !app_assoc. simpl. reflexivity.
    + unfold hook, VolumeDBDelete, call. simpl. rewrite Htr. do 2 eexists.
      rewrite <- !app_assoc. simpl. reflexivity.
Qed.

(** C4: when the image volume is on the storage device and has its DB
    record, and the pool's defaults are unchanged, [EnsureImage] computes
    the size with [ConfigSizeFromSource] and asks the driver for that
    quota; when the driver answers that the volume cannot be shrunk or
    that the request is not supported the image is deleted and created
    again (its DB record, then [CreateVolume] with the image-unpack
    filler); when the driver accepts, nothing more is done; any other
    error is returned. *)
Theorem EnsureImage_existing_volume b fingerprint w s0 w1 contentType dbVol imgVol newVolSize :
  let lockName := OperationLockName "EnsureImage" (b_name b) VolumeTypeImage "" fingerprint in
  let unlock := hook (call_ (CUnlock lockName) (locking_Unlock lockName)) in
  Status b ≠ StoragePoolStatusPending →
  LocalStatus b w ≠ StoragePoolStatusUnvailable →
  OptimizedImages drv_Info = true →
  locking_Lock lockName (ext w) = (inr tt, s0) →
  EnsureImage_lookup b fingerprint []
    (mkWorld s0 (unavailablePools w) (calls w ++ [(CLock lockName, None)]))
  = (Ok (contentType, Some dbVol, imgVol, true), [], w1) →
  ConfigSizeFromSource imgVol imgVol = inr newVolSize →
  let sized := SetConfigSize imgVol newVolSize in
  let quota := drv_SetVolumeQuota sized (ConfigSize sized) false (ext w1) in
  let w2 := mkWorld quota.2 (unavailablePools w1)
              (calls w1 ++ [(CSetVolumeQuota sized (ConfigSize sized) false, outcome quota.1)]) in
  let fresh := GetVolume b VolumeTypeImage contentType fingerprint ∅ in
  run (EnsureImage b fingerprint) w =
    match quota.1 with
    | inr _ => (Ok tt, unlock w2)
    | inl err =>
        if is_ErrCannotBeShrunk err || is_ErrNotSupported err
        then match run (DeleteImage b fingerprint ;;
                        EnsureImage_create b fingerprint contentType fresh) w2 with
             | (r, w3) => (r, unlock w3)
             end
        else (Fail err, unlock w2)
    end
  ∧ ∀ w3 config s3,
      db_VolumeDBCreate b ProjectDefaultName fingerprint "" VolumeTypeImage false
        (vol_config fresh) 0 contentType false false (ext w3) = (inr config, s3) →
      ∃ o tr,
        calls (run (EnsureImage_create b fingerprint contentType fresh) w3).2
        = calls w3
          ++ [(CVolumeDBCreate ProjectDefaultName fingerprint "" VolumeTypeImage false
                 (vol_config fresh) 0 contentType false false, None)]
          ++ [(CCreateVolume (vol_with_config fresh config) (Some (imageFiller fingerprint)), o)]
          ++ tr.
Proof.
  intros lockName unlock Hp Hl Hopt Hlock Hlookup Hsize sized quota w2 fresh.
  split.
  - unfold EnsureImage, run. unfold bind at 1. rewrite isStatusReady_ready by done.
    rewrite Hopt. simpl. unfold locked. fold lockName.
    unfold bind at 1, call at 1. rewrite Hlock. simpl.
    unfold with_defer. fold unlock. unfold bind at 1. rewrite Hlookup. simpl.
    unfold bind at 1. unfold EnsureImage_existing.
    unfold bind at 1, lift at 1. rewrite Hsize. simpl. fold sized.
    unfold bind at 1, try at 1, call at 1. fold quota.
    destruct (quota.1) as [err|[]] eqn:Hq; simpl; [|done].
    destruct (is_ErrCannotBeShrunk err || is_ErrNotSupported err) eqn:Hkind; simpl; [|done].
    fold fresh. subst w2. unfold run, bind. simpl.
    destruct (DeleteImage b fingerprint [] _) as [[[[]|e|msg] rv'] w'] eqn:Hdel; simpl;
      [|done..].
    by destruct (EnsureImage_create b fingerprint contentType fresh rv' w') as [[r rv''] w''].
  - intros w3 config s3 Hcreate.
    pose proof (EnsureImage_create_order b fingerprint contentType fresh w3) as Horder.
    cbv zeta in Horder. by rewrite Hcreate in Horder.
Qed.

End Image.

(** ** Restore with one retry *)

#[local] Arguments bind : simpl never.
#[local] Arguments call : simpl never.
#[local] Arguments call_ : simpl never.
#[local] Arguments try : simpl never.
#[local] Arguments lift : simpl never.
#[local] Arguments ret : simpl never.
#[local] Arguments fail : simpl never.
#[local] Arguments when : simpl never.

(** ** Running an operation step by step *)

Ltac head_of t :=
  lazymatch t with
  | ?f _ => head_of f
  | _ => t
  end.

(** The operations that [exec] leaves as they are, for a lemma about
    them to be used. *)
Ltac exec_opaque m :=
  lazymatch m with
  | createStorageStructure _ _ => idtac
  | DeleteImage _ _ => idtac
  | DeleteInstance _ _ => idtac
  | DeleteCustomVolumeSnapshot _ _ _ => idtac
  | checkNotUsedByRunningInstances _ _ _ => idtac
  | deleteNamedSnapshots _ _ _ _ => idtac
  | deleteSnapshotsOf _ _ _ => idtac
  | deleteVolumeAndRecord _ _ _ => idtac
  | locked _ _ => idtac
  | EnsureImage _ _ => idtac
  end.

(** The operation at the head of the run in the goal is taken one step
    further: a sequence is split, an interface call is replaced by its
    reply (an error or a value and the state it leaves), a test is
    decided both ways. *)
Ltac exec_head m w :=
  lazymatch m with
  | bind _ _ => unfold bind at 1
  | ret _ => unfold ret at 1
  | fail _ => unfold fail at 1
  | panic _ => unfold panic at 1
  | lift ?r =>
      unfold lift at 1;
      lazymatch r with
      | inl _ => idtac
      | inr _ => idtac
      | _ =>
          first
            [ match goal with Hr : r = _ |- _ => rewrite !Hr end
            | let e := fresh "err" in let a := fresh "a" in
              destruct r as [e|a] eqn:? ]
      end;
      cbn [of_reply]
  | call_ _ _ => unfold call_ at 1; unfold call at 1; cbn beta; cbn [fst snd of_reply outcome]
  | call _ ?f =>
      unfold call at 1; cbn [ext];
      let t := eval cbn [ext] in (f (ext w)) in
      first
        [ match goal with Hr : t = _ |- _ => rewrite !Hr end
        | let e := fresh "err" in let a := fresh "a" in let s := fresh "s" in
          destruct t as [[e|a] s] eqn:? ];
      cbn [fst snd of_reply outcome]
  | read _ => unfold read at 1
  | try _ => unfold try at 1
  | when ?c _ => unfold when at 1; destruct c eqn:?
  | revert_Add _ => unfold revert_Add at 1
  | revert_Success => unfold revert_Success at 1
  | with_revert _ => unfold with_revert at 1
  | with_defer _ _ => unfold with_defer at 1
  | getWorld => unfold getWorld at 1
  | modify _ => unfold modify at 1
  | (if ?c then _ else _) => destruct c eqn:?
  | (match ?x with _ => _ end) => destruct x eqn:?
  | perform ?f =>
      unfold perform at 1; cbn [ext];
      let t := eval cbn [ext] in (f (ext w)) in
      first
        [ match goal with Hr : t = _ |- _ => rewrite !Hr end
        | let e := fresh "err" in let a := fresh "a" in let s := fresh "s" in
          destruct t as [[e|a] s] eqn:? ];
      cbn [fst snd of_reply]
  | forM_ _ _ => fail
  | mapM _ _ => fail
  | _ =>
      tryif exec_opaque m then fail
      else (let h := head_of m in is_const h; unfold h at 1)
  end.

Ltac exec_step :=
  lazy beta iota zeta; cbn [ext unavailablePools calls];
  match goal with
  | |- context [ match ?m ?rv ?w with _ => _ end ] =>
      lazymatch type of w with World _ => idtac end;
      first [ match goal with Hr : m rv w = _ |- _ => rewrite Hr end
            | exec_head m w ]
  | |- context [ match ?r with Ok _ => _ | Fail _ => _ | Panic _ => _ end ] =>
      is_var r; destruct r as [[]|?err|?msg]
  | |- context [ match ?r with Ok _ => _ | Fail _ => _ | Panic _ => _ end ] =>
      is_var r; destruct r as [?a|?err|?msg]
  end.

Ltac exec := repeat exec_step; lazy beta iota zeta; cbn [ext unavailablePools calls].

(** The calls of a run, once every step is taken: the list the run has
    added to the calls it started with. *)
Ltac trace_eq :=
  cbn [calls]; rewrite <- ?app_assoc; cbn [app];
  first [reflexivity | symmetry; apply app_nil_r].

Ltac decide_hyps :=
  repeat match goal with
  | H : bool_decide _ = true |- _ => apply bool_decide_eq_true in H
  | H : bool_decide _ = false |- _ => apply bool_decide_eq_false in H
  | H : negb _ = true |- _ => apply negb_true_iff in H
  | H : negb _ = false |- _ => apply negb_false_iff in H
  end.

Section RestoreFacts.
Context {S : Type} `{!Driver S, !Cluster S, !Host S, !Helpers}.
Implicit Types (b : lxdBackend) (w : World S) (vol snapVol : Volume) (inst : Instance).

(** The loop of lines 3156-3167 calls [Delete] on the listed snapshots of
    the instance, one after the other, and stops at the first error. *)
Lemma deleteListedSnapshots_calls (snaps : list Instance) (listed : list string) rv w :
  match deleteListedSnapshots snaps listed rv w with
  | (Ok _, rv', w') =>
      rv' = rv ∧ unavailablePools w' = unavailablePools w
      ∧ calls w' = calls w ++ deleteCalls (listedSnapshots snaps listed)
  | (Fail e, rv', w') =>
      rv' = rv ∧ unavailablePools w' = unavailablePools w
      ∧ ∃ deleted snap rest,
          listedSnapshots snaps listed = deleted ++ snap :: rest
          ∧ calls w' = calls w ++ deleteCalls deleted ++ [(CDelete snap true, Some e)]
  | (Panic _, _, _) => False
  end.
Proof.
  revert w. induction snaps as [|snap snaps IH]; intros w.
  { simpl. by rewrite app_nil_r. }
  unfold deleteListedSnapshots, listedSnapshots. simpl forM_. rewrite filter_cons.
  fold (listedSnapshots snaps listed). fold (deleteListedSnapshots snaps listed).
  unfold bind at 1.
  destruct (StringInSlice _ listed) eqn:Hlisted; cbn [negb].
  - rewrite decide_True by done.
    unfold call at 1. destruct_reply.
    + repeat split; try done. exists [], snap, (listedSnapshots snaps listed).
      by split.
    + match goal with |- context [deleteListedSnapshots snaps listed rv ?w0] =>
        specialize (IH w0); destruct (deleteListedSnapshots snaps listed rv w0)
          as [[[[]|e|msg] rv'] w']
      end; simpl in *; [| |done].
      * destruct IH as (-> & -> & ->). repeat split; try done.
        by rewrite <- app_assoc.
      * destruct IH as (-> & -> & deleted & snap' & rest & Hl & ->).
        repeat split; try done.
        exists (snap :: deleted), snap', rest. rewrite Hl. split; [done|].
        by rewrite <- !app_assoc.
  - rewrite decide_False by (by intros []). unfold ret at 1.
    specialize (IH w).
    by destruct (deleteListedSnapshots snaps listed rv w) as [[[[]|e|msg] rv'] w'].
Qed.

(** What one [DeleteCustomVolumeSnapshot] records: no [RestoreVolume], no
    [DeleteVolume], and the deletion of the snapshot's DB record exactly
    when it returns without error. *)
Lemma DeleteCustomVolumeSnapshot_calls b projectName volName rv w :
  match DeleteCustomVolumeSnapshot b projectName volName rv w with
  | (r, rv', w') =>
      rv' = rv ∧ unavailablePools w' = unavailablePools w
      ∧ ∃ tr, calls w' = calls w ++ tr
          ∧ restores tr = []
          ∧ Forall (λ ev, is_CDeleteVolume ev.1 = false) tr
          ∧ match r with
            | Ok _ => dbDeleted tr = [(projectName, volName, VolumeTypeCustom)]
                      ∧ IsSnapshot volName = true
            | Fail _ => dbDeleted tr = []
            | Panic _ => False
            end
  end.
Proof.
  unfold DeleteCustomVolumeSnapshot.
  destruct (IsSnapshot volName) eqn:Hsnap; simpl.
  2:{ repeat split; try done. exists []. by rewrite app_nil_r. }
  unfold bind at 1, VolumeDBGet at 1, call at 1. destruct_reply.
  { repeat split; try done. eexists. split; [reflexivity|]. by repeat constructor. }
  unfold bind at 1, lift at 1.
  destruct (VolumeContentTypeNameToContentType _) as [e|dbContentType]; simpl.
  { repeat split; try done. eexists. split; [reflexivity|]. by repeat constructor. }
  unfold bind at 1, lift at 1.
  destruct (VolumeDBContentTypeToContentType _) as [e|contentType]; simpl.
  { repeat split; try done. eexists. split; [reflexivity|]. by repeat constructor. }
  unfold bind at 1, call at 1. simpl. destruct_reply.
  { repeat split; try done. eexists. split; [by rewrite <- app_assoc|].
    by repeat constructor. }
  unfold bind at 1.
  destruct a0 as [|]; unfold when at 1.
  - unfold call at 1. simpl. destruct_reply.
    { repeat split; try done. eexists. split; [by rewrite <- !app_assoc|].
      by repeat constructor. }
    unfold bind at 1, VolumeDBDelete at 1, call at 1. simpl. destruct_reply.
    { repeat split; try done. eexists. split; [by rewrite <- !app_assoc|].
      by repeat constructor. }
    unfold SendLifecycle, call_, call. simpl.
    repeat split; try done. eexists. split; [by rewrite <- !app_assoc|].
    by repeat constructor.
  - unfold ret at 1.
    unfold bind at 1, VolumeDBDelete at 1, call at 1. simpl. destruct_reply.
    { repeat split; try done. eexists. split; [by rewrite <- !app_assoc|].
      by repeat constructor. }
    unfold SendLifecycle, call_, call. simpl.
    repeat split; try done. eexists. split; [by rewrite <- !app_assoc|].
    by repeat constructor.
Qed.

(** A [DeleteCustomVolumeSnapshot] that returns without error has deleted
    the snapshot, on the storage device when it was there and in the
    database. *)
Lemma DeleteCustomVolumeSnapshot_deleted b projectName volName rv w :
  match DeleteCustomVolumeSnapshot b projectName volName rv w with
  | (Ok _, _, w') => snapshotDeleted b projectName volName w w'
  | _ => True
  end.
Proof.
  unfold DeleteCustomVolumeSnapshot, VolumeDBGet, VolumeDBDelete, SendLifecycle.
  destruct (IsSnapshot volName) eqn:Hsnap; cbn [negb]; exec; try done.
  all: unfold snapshotDeleted; rewrite Hsnap.
  all: repeat match goal with u : () |- _ => destruct u end.
  all: cbn [vol_type vol_name GetVolume] in *.
  all: first
         [ eexists _, _, _, _, true, _, _, _;
           split_and!; [reflexivity | eassumption.. | f_equal; trace_eq]
         | eexists _, _, _, _, false, _, _, _;
           split_and!; [reflexivity | eassumption | eassumption | eassumption | eassumption
                       | reflexivity | eassumption | f_equal; trace_eq] ].
Qed.

(** A loop that deletes the snapshots of a list of names, as those of
    lines 4492-4497 and 4993-4998: when it returns without error every
    snapshot is deleted, in the order of the list; when it returns an
    error the snapshots before the one whose deletion failed are
    deleted, and the deletion that failed has deleted no record and
    made no [DeleteVolume] or [RestoreVolume] call. *)
Lemma deleteSnapshots_deleted {A} b projectName (name : A → string) (xs : list A) rv w :
  match forM_ xs (λ x, DeleteCustomVolumeSnapshot b projectName (name x)) rv w with
  | (Ok _, rv', w') =>
      rv' = rv ∧ snapshotsDeleted b projectName (name <$> xs) w w'
  | (Fail e, rv', w') =>
      rv' = rv
      ∧ ∃ deleted x rest w2 tr,
          xs = deleted ++ x :: rest
          ∧ snapshotsDeleted b projectName (name <$> deleted) w w2
          ∧ DeleteCustomVolumeSnapshot b projectName (name x) rv w2 = (Fail e, rv, w')
          ∧ calls w' = calls w2 ++ tr
          ∧ dbDeleted tr = []
          ∧ restores tr = []
          ∧ Forall (λ ev, is_CDeleteVolume ev.1 = false) tr
  | (Panic _, _, _) => False
  end.
Proof.
  revert w. induction xs as [|x xs IH]; intros w; [done|].
  cbn [forM_]. unfold bind at 1.
  pose proof (DeleteCustomVolumeSnapshot_calls b projectName (name x) rv w) as Hone.
  pose proof (DeleteCustomVolumeSnapshot_deleted b projectName (name x) rv w) as Hdel.
  destruct (DeleteCustomVolumeSnapshot b projectName (name x) rv w)
    as [[[[]|e|msg] rv1] w1] eqn:Heq;
    destruct Hone as (-> & Hu1 & tr1 & Htr1 & Hr1 & Hd1 & Hdb1); [| |done].
  - specialize (IH w1).
    destruct (forM_ xs _ rv w1) as [[[[]|e|msg] rv2] w2]; [| |done].
    + destruct IH as [-> IH]. split; [done|]. rewrite fmap_cons. by exists w1.
    + destruct IH as (-> & deleted & y & rest & w3 & tr & -> & Hdeleted & Hfail & Hrest).
      split; [done|].
      exists (x :: deleted), y, rest, w3, tr. rewrite fmap_cons.
      destruct Hrest as (? & ? & ? & ?). split_and!; try done. by exists w1.
  - split; [done|].
    exists [], x, xs, w, tr1. by split_and!.
Qed.

Lemma restores_app (tr1 tr2 : list Event) : restores (tr1 ++ tr2) = restores tr1 ++ restores tr2.
Proof. apply filter_app. Qed.

Lemma dbDeleted_app (tr1 tr2 : list Event) :
  dbDeleted (tr1 ++ tr2) = dbDeleted tr1 ++ dbDeleted tr2.
Proof. apply omap_app. Qed.

Lemma instanceDeletes_app (tr1 tr2 : list Event) :
  instanceDeletes (tr1 ++ tr2) = instanceDeletes tr1 ++ instanceDeletes tr2.
Proof. apply filter_app. Qed.

Lemma instanceDeletes_deleteCalls snaps : instanceDeletes (deleteCalls snaps) = deleteCalls snaps.
Proof.
  induction snaps as [|snap snaps IH]; [done|].
  unfold instanceDeletes, deleteCalls in *.
  rewrite fmap_cons, filter_cons_True by done. f_equal. exact IH.
Qed.

Lemma restores_deleteCalls snaps : restores (deleteCalls snaps) = [].
Proof.
  induction snaps as [|snap snaps IH]; [done|].
  unfold restores, deleteCalls in *.
  by rewrite fmap_cons, filter_cons_False by (by intros ?).
Qed.

(** The calls of the deletion of snapshots: no [DeleteVolume] and no
    [RestoreVolume], and the records deleted are those of the snapshots,
    whose names are names of snapshots. *)
Lemma snapshotsDeleted_calls b projectName (volNames : list string) w w' :
  snapshotsDeleted b projectName volNames w w' →
  unavailablePools w' = unavailablePools w
  ∧ Forall (λ volName, IsSnapshot volName = true) volNames
  ∧ ∃ tr, calls w' = calls w ++ tr
      ∧ dbDeleted tr = (λ volName, (projectName, volName, VolumeTypeCustom)) <$> volNames
      ∧ restores tr = []
      ∧ Forall (λ ev, is_CDeleteVolume ev.1 = false) tr.
Proof.
  revert w. induction volNames as [|volName volNames IH]; intros w.
  - intros ->. split_and!; [done..|]. exists []. by rewrite app_nil_r.
  - intros (w1 & Hone & Hrest).
    destruct (IH _ Hrest) as (Hu & Hsnaps & tr & Htr & Hdb & Hres & Hdel).
    destruct Hone as (volume & s1 & dbContentType & contentType & volExists & s2 & s3 & s4
                      & Hsnap & _ & _ & _ & _ & _ & _ & ->).
    cbn [calls unavailablePools] in *.
    split_and!; [done | by constructor |].
    eexists. split; [rewrite Htr, <- !app_assoc; reflexivity|].
    rewrite !dbDeleted_app, !restores_app, Hdb, Hres.
    destruct volExists; split_and!; try reflexivity.
    all: repeat first [ apply Forall_app_2 | apply Forall_cons_2; [reflexivity|]
                      | apply Forall_nil_2 | exact Hdel ].
Qed.


(** Lines 3145-3182 by cases of the driver's first reply.  The revert
    chain is emptied only when the first call succeeds. *)
Lemma restoreInstanceVolume_cases inst vol snapVol rv w :
  let first := drv_RestoreVolume vol snapVol (ext w) in
  let w1 := mkWorld first.2 (unavailablePools w)
              (calls w ++ [(CRestoreVolume vol snapVol, outcome first.1)]) in
  match restoreInstanceVolume inst vol snapVol rv w with
  | (r, rv', w') =>
      unavailablePools w' = unavailablePools w
      ∧ match first.1 with
        | inr _ => r = Ok tt ∧ rv' = [] ∧ w' = w1
        | inl err =>
            rv' = rv
            ∧ match as_ErrDeleteSnapshots err with
              | None => r = Fail err ∧ w' = w1
              | Some listed =>
                  let listing := inst_Snapshots inst first.2 in
                  ∃ tr, calls w' = calls w1 ++ [(CSnapshots inst, outcome listing.1)] ++ tr
                    ∧ match listing.1 with
                      | inl e => r = Fail e ∧ tr = []
                      | inr snaps =>
                          match restores tr with
                          | [] =>
                              is_Fail r = true
                              ∧ ∃ deleted snap rest e,
                                  r = Fail e
                                  ∧ listedSnapshots snaps listed = deleted ++ snap :: rest
                                  ∧ tr = deleteCalls deleted ++ [(CDelete snap true, Some e)]
                          | [(c, o)] =>
                              c = CRestoreVolume vol snapVol
                              ∧ r = result_of o
                              ∧ tr = deleteCalls (listedSnapshots snaps listed) ++ [(c, o)]
                          | _ => False
                          end
                      end
              end
        end
  end.
Proof.
  intros first w1. subst w1 first.
  unfold restoreInstanceVolume.
  unfold bind at 1, try at 1, RestoreVolume at 1, call at 1.
  destruct_reply; [|by destruct a].
  destruct (as_ErrDeleteSnapshots err) as [listed|] eqn:Hkind; [|done].
  unfold bind at 1, call at 1. simpl. destruct_reply.
  { repeat split; try done. by exists []. }
  unfold bind at 1.
  match goal with |- context [deleteListedSnapshots a listed rv ?w0] =>
    pose proof (deleteListedSnapshots_calls a listed rv w0) as Hdel;
    destruct (deleteListedSnapshots a listed rv w0) as [[[[]|e|msg] rv1] w2]
  end; [| |done].
  - destruct Hdel as (-> & Hu & Htr). simpl in Hu, Htr.
    unfold bind at 1, RestoreVolume at 1, call at 1. destruct_reply.
    + split; [done|]. split; [done|]. eexists.
      split; [by rewrite Htr, <- !app_assoc|].
      rewrite restores_app, restores_deleteCalls. by simpl.
    + destruct a0. split; [done|]. split; [done|]. eexists.
      split; [by rewrite Htr, <- !app_assoc|].
      rewrite restores_app, restores_deleteCalls. by simpl.
  - destruct Hdel as (-> & Hu & deleted & snap & rest & Hl & Htr). simpl in Hu, Htr.
    split; [done|]. split; [done|]. eexists.
    split; [by rewrite Htr, <- !app_assoc|].
    rewrite restores_app, restores_deleteCalls. simpl.
    split; [done|]. by exists deleted, snap, rest, e.
Qed.

Lemma applyInstanceRootDiskOverrides_pure b inst vol rv w :
  ∃ r, applyInstanceRootDiskOverrides b inst vol rv w = (of_reply r, rv, w).
Proof.
  unfold applyInstanceRootDiskOverrides, bind, lift.
  destruct (GetRootDiskDevice _) as [e|root]; simpl; [by exists (inl e)|].
  by eexists.
Qed.

Lemma updates_app (tr1 tr2 : list Event) : updates (tr1 ++ tr2) = updates tr1 ++ updates tr2.
Proof. apply filter_app. Qed.

Lemma updates_deleteCalls snaps : updates (deleteCalls snaps) = [].
Proof.
  induction snaps as [|snap snaps IH]; [done|].
  unfold updates, deleteCalls in *.
  by rewrite fmap_cons, filter_cons_False by (by intros ?).
Qed.

Lemma restores_cons ev (tr : list Event) :
  restores (ev :: tr) = if is_CRestoreVolume ev.1 then ev :: restores tr else restores tr.
Proof. unfold restores. rewrite filter_cons. by destruct (is_CRestoreVolume ev.1). Qed.

Lemma updates_cons ev (tr : list Event) :
  updates (ev :: tr) = if is_CUpdateStoragePoolVolume ev.1 then ev :: updates tr else updates tr.
Proof. unfold updates. rewrite filter_cons. by destruct (is_CUpdateStoragePoolVolume ev.1). Qed.

Lemma restores_nil : restores [] = [].
Proof. done. Qed.

Lemma updates_nil : updates [] = [].
Proof. done. Qed.

Ltac simpl_trace :=
  repeat (progress (
    rewrite ?restores_app, ?updates_app, ?restores_cons, ?updates_cons,
      ?restores_deleteCalls, ?updates_deleteCalls, ?restores_nil, ?updates_nil;
    simpl)).

(** A run of [RestoreInstanceSnapshot] that returns without error: the
    update of the DB record to the snapshot's description and config is
    kept when the first [RestoreVolume] succeeded, and is followed by the
    revert hook's update back to the values read at the start when the
    restore succeeded at the second call. *)
Lemma RestoreInstanceSnapshot_updates b inst src w :
  match run (RestoreInstanceSnapshot b inst src) w with
  | (Ok _, w') =>
      ∃ tr volType dbVol s1 srcDBVol s2,
        calls w' = calls w ++ tr
        ∧ InstanceTypeToVolumeType (inst_Type inst) = inr volType
        ∧ db_VolumeDBGet b (inst_Project inst) (inst_Name inst) volType (ext w) = (inr dbVol, s1)
        ∧ db_VolumeDBGet b (inst_Project src) (inst_Name src) volType s1 = (inr srcDBVol, s2)
        ∧ let changed :=
            bool_decide (size (detectChangedConfig (sv_Config dbVol) (sv_Config srcDBVol)).1 ≠ 0%nat)
            || bool_decide (sv_Description dbVol ≠ sv_Description srcDBVol) in
          let toSnapshot := λ volDBType,
            (CUpdateStoragePoolVolume (inst_Project inst) (inst_Name inst) volDBType (b_id b)
               (sv_Description srcDBVol) (sv_Config srcDBVol), None) in
          let back := λ volDBType o,
            (CUpdateStoragePoolVolume (inst_Project inst) (inst_Name inst) volDBType (b_id b)
               (sv_Description dbVol) (sv_Config dbVol), o) in
          match restores tr with
          | [(_, None)] =>
              if changed then ∃ volDBType, updates tr = [toSnapshot volDBType]
              else updates tr = []
          | [(_, Some err); (_, None)] =>
              is_Some (as_ErrDeleteSnapshots err)
              ∧ if changed
                then ∃ volDBType o,
                       updates tr = [toSnapshot volDBType; back volDBType o]
                       ∧ last tr = Some (back volDBType o)
                else updates tr = []
          | _ => False
          end
  | _ => True
  end.
Proof.
  unfold run, RestoreInstanceSnapshot, with_revert.
  case_bool_decide; [done|].
  destruct (inst_IsSnapshot inst); [done|].
  destruct (inst_IsSnapshot src); [|done]. cbn [negb].
  unfold bind at 1, read at 1.
  destruct (inst_IsRunning inst (ext w)); [done|].
  unfold bind at 1, lift at 1.
  destruct (InstanceTypeToVolumeType (inst_Type inst)) as [e|volType] eqn:HvolType;
    [done|]. simpl.
  unfold bind at 1, VolumeDBGet at 1, call at 1.
  destruct (db_VolumeDBGet b (inst_Project inst) (inst_Name inst) volType (ext w))
    as [[e|dbVol] s1] eqn:Hget1; [done|]. simpl.
  unfold bind at 1.
  match goal with |- context [applyInstanceRootDiskOverrides b inst ?v ?rv0 ?w0] =>
    destruct (applyInstanceRootDiskOverrides_pure b inst v rv0 w0) as [[e|vol] ->]
  end; [done|]. simpl.
  destruct (GetParentAndSnapshotName (inst_Name src)).2; [|done]. cbn [negb].
  unfold bind at 1, VolumeDBGet at 1, call at 1. simpl.
  destruct (db_VolumeDBGet b (inst_Project src) (inst_Name src) volType s1)
    as [[e|srcDBVol] s2] eqn:Hget2; [done|]. simpl.
  unfold bind at 1.
  destruct (bool_decide _ || bool_decide _) eqn:Hchanged; unfold when at 1.
  - (* the record is updated to the snapshot's values *)
    unfold bind at 1, lift at 1.
    destruct (VolumeTypeToDBType volType) as [e|volDBType]; [done|]. simpl.
    unfold bind at 1, UpdateStoragePoolVolume at 1, call at 1. simpl.
    destruct_reply; [done|].
    unfold bind at 1, VolumeDBGet at 1, call at 1. simpl. destruct_reply; [done|].
    match goal with |- context [restoreInstanceVolume inst vol ?sv ?rv0 ?w0] =>
      pose proof (restoreInstanceVolume_cases inst vol sv rv0 w0) as Htail;
      destruct (restoreInstanceVolume inst vol sv rv0 w0) as [[r rv1] w1]
    end.
    cbv zeta in Htail. simpl in Htail. destruct Htail as [Hu Htail].
    destruct r as [[]|e|msg]; [|done..].
    revert Htail. destruct_reply.
    + intros [-> Htail].
      destruct (as_ErrDeleteSnapshots err) as [listed|] eqn:Hkind; [|by destruct Htail].
      destruct Htail as (tr & Htr & Htail). revert Htr Htail. destruct_reply.
      { by intros _ [? _]. }
      intros Htr Htail.
      destruct (restores tr) as [|[c [e|]] [|? ?]] eqn:Hrest; try done.
      { by destruct Htail as [? _]. }
      { by destruct Htail as (_ & ? & _). }
      destruct Htail as (-> & _ & ->).
      unfold hook, UpdateStoragePoolVolume, call. simpl.
      eexists _, volType, dbVol, s1, srcDBVol, s2.
      split; [rewrite Htr; rewrite <- !app_assoc; reflexivity|].
      do 3 (split; [done|]).
      cbv zeta. rewrite Hchanged. simpl_trace.
      rewrite Hkind. split; [done|].
      do 2 eexists. split; [reflexivity|].
      rewrite !app_comm_cons. apply last_snoc.
    + intros (_ & -> & ->). simpl.
      eexists _, volType, dbVol, s1, srcDBVol, s2.
      split; [rewrite <- !app_assoc; reflexivity|].
      do 3 (split; [done|]).
      cbv zeta. rewrite Hchanged. simpl_trace. by exists volDBType.
  - (* the record already has the snapshot's values *)
    unfold ret at 1.
    unfold bind at 1, VolumeDBGet at 1, call at 1. simpl. destruct_reply; [done|].
    match goal with |- context [restoreInstanceVolume inst vol ?sv ?rv0 ?w0] =>
      pose proof (restoreInstanceVolume_cases inst vol sv rv0 w0) as Htail;
      destruct (restoreInstanceVolume inst vol sv rv0 w0) as [[r rv1] w1]
    end.
    cbv zeta in Htail. simpl in Htail. destruct Htail as [Hu Htail].
    destruct r as [[]|e|msg]; [|done..].
    revert Htail. destruct_reply.
    + intros [-> Htail].
      destruct (as_ErrDeleteSnapshots err) as [listed|] eqn:Hkind; [|by destruct Htail].
      destruct Htail as (tr & Htr & Htail). revert Htr Htail. destruct_reply.
      { by intros _ [? _]. }
      intros Htr Htail.
      destruct (restores tr) as [|[c [e|]] [|? ?]] eqn:Hrest; try done.
      { by destruct Htail as [? _]. }
      { by destruct Htail as (_ & ? & _). }
      destruct Htail as (-> & _ & ->). simpl.
      eexists _, volType, dbVol, s1, srcDBVol, s2.
      split; [rewrite Htr; rewrite <- !app_assoc; reflexivity|].
      do 3 (split; [done|]).
      cbv zeta. rewrite Hchanged. simpl_trace.
      by rewrite Hkind.
    + intros (_ & -> & ->). simpl.
      eexists _, volType, dbVol, s1, srcDBVol, s2.
      split; [rewrite <- !app_assoc; reflexivity|].
      do 3 (split; [done|]).
      cbv zeta. rewrite Hchanged. by simpl_trace.
Qed.

End RestoreFacts.

(** ** Deleting a parent volume *)

Section DeleteFacts.
Context {S : Type} `{!Driver S, !Cluster S, !Host S, !Helpers}.
Implicit Types (b : lxdBackend) (w : World S) (inst : Instance).

(** Lines 4499-4552: when the deletion of the parent returns without
    error the volume is deleted, on the storage device when it was there
    and in the database; when it returns an error the record is not
    deleted. *)
Lemma deleteVolumeAndRecord_deleted b projectName volName rv w :
  match deleteVolumeAndRecord b projectName volName rv w with
  | (Ok _, rv', w') => rv' = rv ∧ volumeDeleted b projectName volName w w'
  | (Fail _, rv', w') => rv' = rv ∧ ∃ tr, calls w' = calls w ++ tr ∧ dbDeleted tr = []
  | (Panic _, _, _) => False
  end.
Proof.
  unfold deleteVolumeAndRecord, VolumeDBGet, VolumeDBDelete, SendLifecycle.
  exec.
  all: try (split; [done|]; eexists; split; [trace_eq | reflexivity]).
  all: split; [done|].
  all: unfold volumeDeleted.
  all: repeat match goal with u : () |- _ => destruct u end.
  all: cbn [vol_type vol_name GetVolume] in *.
  all: match goal with
       | Hv : drv_HasVolume _ _ = (inr ?volExists, _) |- _ =>
           eexists _, _, _, _, volExists, _, _, _, _
       end.
  all: split; [eassumption|].
  all: split; [eassumption|].
  all: split; [eassumption|].
  all: split; [eassumption|].
  all: split; [first [eassumption | reflexivity]|].
  all: match goal with Hb : os_PathExists _ _ = _ |- _ => rewrite Hb end.
  all: split; [first [eassumption | reflexivity]|].
  all: split; [eassumption|].
  all: f_equal; trace_eq.
Qed.

(** C2, as amended: [DeleteInstance] refuses a parent that still has
    snapshot records, with an error, after the one database read and
    with nothing removed.  [DeleteCustomVolume] does not refuse: when it
    returns without error it has deleted every snapshot that the
    database lists, one after the other as [DeleteCustomVolumeSnapshot]
    does (the driver's [DeleteVolumeSnapshot] when the driver has the
    volume, then the record), and then the parent (the driver's
    [DeleteVolume] when the driver has the volume, the directory of its
    backups, then the record).  When it returns an error the record of
    the parent is not deleted, and the driver's [DeleteVolume] was
    called only after every snapshot had been deleted. *)
Theorem delete_parent_with_snapshots :
  (∀ b inst w volType snapshots s1,
     inst_IsSnapshot inst = false →
     InstanceTypeToVolumeType (inst_Type inst) = inr volType →
     db_VolumeDBSnapshotsGet b (inst_Project inst) (inst_Name inst) volType (ext w)
     = (inr snapshots, s1) →
     snapshots ≠ [] →
     run (DeleteInstance b inst) w
     = (Fail (Errorf "Cannot remove an instance volume that has snapshots"),
        mkWorld s1 (unavailablePools w)
          (calls w ++ [(CVolumeDBSnapshotsGet (inst_Project inst) (inst_Name inst) volType,
                        None)])))
  ∧ (∀ b projectName volName w,
       let listing := db_VolumeDBSnapshotsGet b projectName volName VolumeTypeCustom (ext w) in
       let w1 := mkWorld listing.2 (unavailablePools w)
                   (calls w ++ [(CVolumeDBSnapshotsGet projectName volName VolumeTypeCustom,
                                 None)]) in
       match run (DeleteCustomVolume b projectName volName) w with
       | (Ok _, w') =>
           ∃ snapshots w2,
             listing.1 = inr snapshots
             ∧ snapshotsDeleted b projectName (sv_Name <$> snapshots) w1 w2
             ∧ volumeDeleted b projectName volName w2 w'
       | (Fail _, w') =>
           ∃ tr, calls w' = calls w ++ tr
             ∧ ((projectName, volName, VolumeTypeCustom) ∉ dbDeleted tr)
             ∧ (Forall (λ ev, is_CDeleteVolume ev.1 = false) tr
                ∨ ∃ snapshots w2,
                    listing.1 = inr snapshots
                    ∧ snapshotsDeleted b projectName (sv_Name <$> snapshots) w1 w2)
       | (Panic _, _) => False
       end).
Proof.
  split.
  - intros b inst w volType snapshots s1 Hsnap HvolType Hget Hne.
    unfold DeleteInstance, run. rewrite Hsnap.
    unfold bind at 1, lift at 1. rewrite HvolType. simpl.
    unfold bind at 1, call at 1. rewrite Hget. simpl.
    rewrite bool_decide_true; [done|].
    destruct snapshots; [done|]. simpl. lia.
  - intros b projectName volName w listing w1. subst listing w1.
    unfold run, DeleteCustomVolume.
    destruct (GetParentAndSnapshotName volName).2 eqn:Hsnap.
    { exists []. split; [by rewrite app_nil_r|]. split; [by intros Hin%elem_of_nil|].
      left. constructor. }
    unfold bind at 1, call at 1.
    destruct (db_VolumeDBSnapshotsGet b projectName volName VolumeTypeCustom (ext w))
      as [[err|snapshots] s1] eqn:Hget; cbn [fst snd of_reply outcome].
    { eexists. split; [reflexivity|]. split; [by intros Hin%elem_of_nil|].
      left. by repeat constructor. }
    unfold bind at 1. unfold deleteSnapshotsOf.
    match goal with
    | |- context [ forM_ snapshots ?f [] ?w1 ] =>
        pose proof (deleteSnapshots_deleted b projectName sv_Name snapshots [] w1) as Hdel;
        destruct (forM_ snapshots f [] w1) as [[[[]|e|msg] rv1] w2]
    end; [| |done].
    + destruct Hdel as [-> Hdel].
      destruct (snapshotsDeleted_calls _ _ _ _ _ Hdel)
        as (Hu & Hnames & trS & HtrS & HdbS & _ & HvolS).
      cbn [calls] in HtrS.
      pose proof (deleteVolumeAndRecord_deleted b projectName volName [] w2) as Hparent.
      destruct (deleteVolumeAndRecord b projectName volName [] w2)
        as [[[[]|e|msg] rv2] w3]; [| |done].
      * destruct Hparent as [_ Hparent]. by exists snapshots, w2.
      * destruct Hparent as (_ & trP & HtrP & HdbP).
        eexists. split; [rewrite HtrP, HtrS, <- !app_assoc; reflexivity|].
        split; [|right; by exists snapshots, w2].
        cbn [app]. change (dbDeleted (?ev :: ?l)) with (dbDeleted l).
        rewrite dbDeleted_app, HdbS, HdbP, app_nil_r.
        intros (volName' & Heq & Hin)%list_elem_of_fmap. simplify_eq.
        rewrite Forall_forall in Hnames. specialize (Hnames _ Hin).
        unfold IsSnapshot in Hnames. congruence.
    + destruct Hdel as (_ & deleted & x & rest & w3 & tr & -> & Hdeleted & _ & Hcalls
                        & Hdb & _ & Hvol).
      destruct (snapshotsDeleted_calls _ _ _ _ _ Hdeleted)
        as (Hu & Hnames & trS & HtrS & HdbS & _ & HvolS).
      cbn [calls] in HtrS.
      eexists. split; [rewrite Hcalls, HtrS, <- !app_assoc; reflexivity|].
      split.
      * cbn [app]. change (dbDeleted (?ev :: ?l)) with (dbDeleted l).
        rewrite dbDeleted_app, HdbS, Hdb, app_nil_r.
        intros (volName' & Heq & Hin)%list_elem_of_fmap. simplify_eq.
        rewrite Forall_forall in Hnames. specialize (Hnames _ Hin).
        unfold IsSnapshot in Hnames. congruence.
      * left. apply Forall_cons_2; [reflexivity|]. by apply Forall_app_2.
Qed.

End DeleteFacts.

(** ** Calls of an allowed kind *)

Section Emits.
Context {S : Type} (P : Call → bool).

Lemma allowed_nil : allowed P [].
Proof. constructor. Qed.

Lemma allowed_app tr1 tr2 : allowed P tr1 → allowed P tr2 → allowed P (tr1 ++ tr2).
Proof. intros. by apply Forall_app. Qed.

Lemma emits_same {A} (m : M S A) :
  (∀ rv w, (m rv w).1.2 = rv ∧ (m rv w).2 = w) → emits P m.
Proof.
  intros Hm rv w. destruct (Hm rv w) as [Hrv Hw]. split.
  - exists []. rewrite Hw, app_nil_r. split; [done|apply allowed_nil].
  - exists []. by split.
Qed.

Lemma emits_ret {A} (a : A) : emits P (ret (S:=S) a).
Proof. by apply emits_same. Qed.

Lemma emits_fail {A} e : emits P (fail (S:=S) (A:=A) e).
Proof. by apply emits_same. Qed.

Lemma emits_panic {A} msg : emits P (panic (S:=S) (A:=A) msg).
Proof. by apply emits_same. Qed.

Lemma emits_lift {A} (r : reply A) : emits P (lift (S:=S) r).
Proof. by apply emits_same. Qed.

Lemma emits_read {A} (f : S → A) : emits P (read f).
Proof. by apply emits_same. Qed.

Lemma emits_call {A} c (f : S → reply A * S) : P c = true → emits P (call c f).
Proof.
  intros Hc rv w. split.
  - eexists. split; [reflexivity|]. by repeat constructor.
  - exists []. by split.
Qed.

Lemma emits_call_ c (f : S → S) : P c = true → emits P (call_ c f).
Proof. apply emits_call. Qed.

Lemma emits_bind {A B} (m : M S A) (k : A → M S B) :
  emits P m → (∀ a, emits P (k a)) → emits P (bind m k).
Proof.
  intros Hm Hk rv w. unfold bind.
  destruct (Hm rv w) as [(tr1 & Htr1 & Ha1) (hs1 & Hhs1 & Hh1)].
  destruct (m rv w) as [[[a|e|msg] rv1] w1]; simpl in *.
  - destruct (Hk a rv1 w1) as [(tr2 & Htr2 & Ha2) (hs2 & Hhs2 & Hh2)].
    split.
    + exists (tr1 ++ tr2). rewrite Htr2, Htr1, app_assoc. split; [done|by apply allowed_app].
    + exists (hs2 ++ hs1). rewrite Hhs2, Hhs1, app_assoc. split; [done|by apply Forall_app].
  - split; [by exists tr1 | by exists hs1].
  - split; [by exists tr1 | by exists hs1].
Qed.

Lemma emits_try {A} (m : M S A) : emits P m → emits P (try m).
Proof.
  intros Hm rv w. unfold try. specialize (Hm rv w).
  by destruct (m rv w) as [[[a|e|msg] rv1] w1].
Qed.

Lemma emits_when (c : bool) (m : M S unit) : emits P m → emits P (when c m).
Proof. destruct c; [done | intros _; apply emits_ret]. Qed.

Lemma emits_forM_ {A} (xs : list A) (f : A → M S unit) :
  (∀ x, emits P (f x)) → emits P (forM_ xs f).
Proof.
  intros Hf. induction xs as [|x xs IH]; simpl.
  - apply emits_ret.
  - apply emits_bind; auto.
Qed.

Lemma emits_revert_Add (h : World S → World S) : hook_emits P h → emits P (revert_Add h).
Proof.
  intros Hh rv w. split.
  - exists []. simpl. rewrite app_nil_r. split; [done|apply allowed_nil].
  - exists [h]. split; [done|]. by repeat constructor.
Qed.

Lemma hook_emits_hook {A} (m : M S A) : emits P m → hook_emits P (hook m).
Proof. intros Hm w. apply (Hm [] w). Qed.

Lemma hook_emits_compose (h1 h2 : World S → World S) :
  hook_emits P h1 → hook_emits P h2 → hook_emits P (λ w, h2 (h1 w)).
Proof.
  intros H1 H2 w. destruct (H1 w) as (tr1 & Htr1 & Ha1).
  destruct (H2 (h1 w)) as (tr2 & Htr2 & Ha2).
  exists (tr1 ++ tr2). rewrite Htr2, Htr1, app_assoc. split; [done|by apply allowed_app].
Qed.


Lemma finishes_revert_Success : finishes P (revert_Success (S:=S)).
Proof.
  intros rv w. split; [|done].
  exists []. simpl. rewrite app_nil_r. split; [done|apply allowed_nil].
Qed.

Lemma finishes_fail {A} e : finishes P (fail (S:=S) (A:=A) e).
Proof.
  intros rv w. split.
  - exists []. simpl. rewrite app_nil_r. split; [done|apply allowed_nil].
  - exists []. by split.
Qed.

Lemma finishes_panic {A} msg : finishes P (panic (S:=S) (A:=A) msg).
Proof.
  intros rv w. split.
  - exists []. simpl. rewrite app_nil_r. split; [done|apply allowed_nil].
  - exists []. by split.
Qed.

Lemma finishes_bind {A B} (m : M S A) (k : A → M S B) :
  emits P m → (∀ a, finishes P (k a)) → finishes P (bind m k).
Proof.
  intros Hm Hk rv w. unfold bind.
  destruct (Hm rv w) as [(tr1 & Htr1 & Ha1) (hs1 & Hhs1 & Hh1)].
  destruct (m rv w) as [[[a|e|msg] rv1] w1]; simpl in *.
  - destruct (Hk a rv1 w1) as [(tr2 & Htr2 & Ha2) Hrest].
    split.
    + exists (tr1 ++ tr2). rewrite Htr2, Htr1, app_assoc. split; [done|by apply allowed_app].
    + destruct ((k a rv1 w1).1.1); [done| |].
      * destruct Hrest as (hs2 & Hhs2 & Hh2). exists (hs2 ++ hs1).
        rewrite Hhs2, Hhs1, app_assoc. split; [done|by apply Forall_app].
      * destruct Hrest as (hs2 & Hhs2 & Hh2). exists (hs2 ++ hs1).
        rewrite Hhs2, Hhs1, app_assoc. split; [done|by apply Forall_app].
  - split; [by exists tr1 | by exists hs1].
  - split; [by exists tr1 | by exists hs1].
Qed.

End Emits.

Create HintDb emits discriminated.
#[export] Hint Resolve emits_ret emits_fail emits_panic emits_lift emits_read : emits.
#[export] Hint Resolve finishes_revert_Success finishes_fail finishes_panic : emits.

(** As for [plain], down to the calls, which must be of an allowed kind. *)
Ltac solve_emits :=
  repeat first
    [ solve [auto 1 with emits nocore]
    | apply emits_call; reflexivity
    | apply emits_call_; reflexivity
    | apply emits_bind; [| intros ?]
    | apply finishes_bind; [| intros ?]
    | apply emits_try
    | apply emits_when
    | apply emits_forM_; intros ?
    | apply emits_revert_Add
    | apply hook_emits_hook
    | apply hook_emits_compose
    | progress cbv beta zeta
    | match goal with
      | |- emits _ (match ?x with _ => _ end) => destruct x
      | |- finishes _ (match ?x with _ => _ end) => destruct x
      end ].

(** ** Renaming the records of an instance *)

Section RenameFacts.
Context {S : Type} `{!Driver S, !Cluster S, !Host S, !Helpers}.
Implicit Types (b : lxdBackend) (w : World S) (inst : Instance).

Lemma emits_removeSymlinkIfExists path : emits (S:=S) notRename (removeSymlinkIfExists path).
Proof. unfold removeSymlinkIfExists. solve_emits. Qed.

Lemma emits_createSymlink target link : emits (S:=S) notRename (createSymlink target link).
Proof. unfold createSymlink. solve_emits. Qed.

#[local] Hint Resolve emits_removeSymlinkIfExists emits_createSymlink : emits.

Lemma emits_ensureInstanceSymlink b t p n path :
  emits (S:=S) notRename (ensureInstanceSymlink b t p n path).
Proof. unfold ensureInstanceSymlink. solve_emits. Qed.

Lemma emits_removeInstanceSymlink b t p n :
  emits (S:=S) notRename (removeInstanceSymlink b t p n).
Proof. unfold removeInstanceSymlink. solve_emits. Qed.

Lemma emits_ensureInstanceSnapshotSymlink b t p n :
  emits (S:=S) notRename (ensureInstanceSnapshotSymlink b t p n).
Proof. unfold ensureInstanceSnapshotSymlink. solve_emits. Qed.

Lemma emits_removeInstanceSnapshotSymlinkIfUnused b t p n :
  emits (S:=S) notRename (removeInstanceSnapshotSymlinkIfUnused b t p n).
Proof. unfold removeInstanceSnapshotSymlinkIfUnused. solve_emits. Qed.

#[local] Hint Resolve emits_ensureInstanceSymlink emits_removeInstanceSymlink
  emits_ensureInstanceSnapshotSymlink emits_removeInstanceSnapshotSymlinkIfUnused : emits.











End RenameFacts.

(** ** Operations on a pool that is not ready *)

Section NotReady.
Context {S : Type} `{!Driver S, !Cluster S, !Host S, !Helpers, !VolumeImport S}.
Implicit Types (b : lxdBackend) (w : World S) (inst src : Instance).

(** C6, as amended: the operations that start with [isStatusReady]
    ([CreateInstance], [CreateInstanceFromCopy], [CreateInstanceFromImage],
    [CreateInstanceFromMigration], [RefreshCustomVolume], [EnsureImage],
    [CreateCustomVolume], [CreateCustomVolumeFromCopy] and
    [CreateCustomVolumeFromMigration]), called on a pool whose status is
    pending or that is in the unavailable set, fail before any interface
    call and leave the state as it was; the error is of the
    service-unavailable kind exactly when the status is not pending (a
    pending pool gives a plain error).  For the copy, refresh and
    migration operations this holds whatever their statements after the
    first use of another pool or of the migration connection do.
    [CreateCustomVolumeFromISO] does not look at the pool's readiness: on
    such a pool, once the project allows the volume, it asks the driver
    whether the volume exists and, when it does not, goes on to create
    the database record. *)
Theorem not_ready_fails_first b inst src fingerprint args
    (projectName srcProjectName volName desc srcPoolName srcVolName : string)
    (config : Config) (contentType : ContentType) (snapshots allowInconsistent : bool)
    (size : Z) (restOfInstanceCopy : VolumeType → ContentType → M S unit)
    (restOfVolumeCopy : string → M S unit)
    (restOfMigration : option StorageVolume → option Config → M S unit) w :
  Status b = StoragePoolStatusPending ∨ b_name b ∈ unavailablePools w →
  let failsFirst (m : M S unit) := run m w = (Fail (notReadyError b), w) in
  failsFirst (CreateInstance b inst)
  ∧ failsFirst (CreateInstanceFromCopy b inst src snapshots allowInconsistent
                  restOfInstanceCopy)
  ∧ failsFirst (CreateInstanceFromImage b inst fingerprint)
  ∧ failsFirst (CreateInstanceFromMigration b inst args)
  ∧ failsFirst (RefreshCustomVolume b projectName srcProjectName volName desc config
                  srcPoolName srcVolName snapshots restOfVolumeCopy)
  ∧ failsFirst (EnsureImage b fingerprint)
  ∧ failsFirst (CreateCustomVolume b projectName volName desc config contentType)
  ∧ failsFirst (CreateCustomVolumeFromCopy b projectName srcProjectName volName desc config
                  srcPoolName srcVolName snapshots restOfVolumeCopy)
  ∧ failsFirst (CreateCustomVolumeFromMigration b projectName args restOfMigration)
  ∧ StatusErrorCheck (notReadyError b) StatusServiceUnavailable
    = negb (bool_decide (Status b = StoragePoolStatusPending))
  ∧ let isoConfig : Config := {["size" := Sprintf_d size]} in
    let vol := GetVolume b VolumeTypeCustom ContentTypeISO
                 (project_StorageVolume projectName volName) isoConfig in
    let fromISO := run (CreateCustomVolumeFromISO b projectName volName size) w in
    match project_AllowVolumeCreation projectName volName isoConfig (ext w) with
    | (inl err, s1) =>
        fromISO = (Fail (Wrapf "Failed checking volume creation allowed" err),
                   mkWorld s1 (unavailablePools w) (calls w))
    | (inr _, s1) =>
        match drv_HasVolume vol s1 with
        | (inr false, s2) =>
            ∃ tr, calls fromISO.2
                  = calls w
                    ++ [(CHasVolume vol, None);
                        (CVolumeDBCreate projectName volName "" VolumeTypeCustom false
                           isoConfig 0 ContentTypeISO true true,
                         outcome (db_VolumeDBCreate b projectName volName ""
                                    VolumeTypeCustom false isoConfig 0 ContentTypeISO
                                    true true s2).1)]
                    ++ tr
        | (r, s2) =>
            fromISO
            = (match r with
               | inl err => Fail err
               | inr _ => Fail (Errorf "Cannot create volume, already exists on target storage")
               end,
               mkWorld s2 (unavailablePools w) (calls w ++ [(CHasVolume vol, outcome r)]))
        end
    end.
Proof.
  intros Hnot. cbv zeta. split_and!; try by apply guarded_not_ready.
  { unfold notReadyError. by case_bool_decide. }
  unfold CreateCustomVolumeFromISO, run, bind, try, perform, with_revert, call, fail, ret.
  cbn [ext unavailablePools calls].
  destruct (project_AllowVolumeCreation _ _ _ _) as [[err|[]] s1]; cbn; [done|].
  destruct (drv_HasVolume _ s1) as [[err|[]] s2]; cbn; [done..|].
  unfold VolumeDBCreate, VolumeDBDelete, SendLifecycle, hook, call_, call, revert_Add,
    revert_Success.
  cbn [ext unavailablePools calls vol_type vol_contentType vol_config vol_name GetVolume].
  destruct (db_VolumeDBCreate _ _ _ _ _ _ _ _ _ _ _ s2) as [[err|filled] s3];
    cbn; [eexists; trace_eq|].
  destruct (srcData_Seek s3) as [[err|[]] s4]; cbn; [eexists; trace_eq|].
  destruct (drv_CreateVolume _ _ s4) as [[err|n] s5]; cbn; eexists; trace_eq.
Qed.

End NotReady.

(** ** Runs on concrete inputs *)

(** C6 fails as stated: on a pending pool [CreateInstanceFromImage] fails
    first, but with a plain error that is not of the service-unavailable
    kind; and [CreateCustomVolumeFromISO] succeeds on a pending pool and
    on a pool in the unavailable set, with a new database record and a
    new volume. *)
Lemma pending_pool_error_is_not_service_unavailable :
  let pending := run (CreateCustomVolumeFromISO Sim.pendingPool "default" "iso1" 1024)
                     (Sim.world Sim.empty) in
  let unavailable := run (CreateCustomVolumeFromISO Sim.pool "default" "iso1" 1024)
                         (Sim.unavailableWorld Sim.empty) in
  run (CreateInstanceFromImage Sim.pendingPool (Sim.container "c1") "abc") (Sim.world Sim.empty)
  = (Fail (Errorf "Specified pool is not fully created"), Sim.world Sim.empty)
  ∧ StatusErrorCheck (Errorf "Specified pool is not fully created") StatusServiceUnavailable
    = false
  ∧ Status Sim.pendingPool = StoragePoolStatusPending
  ∧ pending.1 = Ok tt
  ∧ Sim.recordNames (ext pending.2) = ["iso1"]
  ∧ Sim.onDisk (ext pending.2) = [(VolumeTypeCustom, "iso1")]
  ∧ b_name Sim.pool ∈ unavailablePools (Sim.unavailableWorld Sim.empty)
  ∧ unavailable.1 = Ok tt
  ∧ Sim.recordNames (ext unavailable.2) = ["iso1"]
  ∧ Sim.onDisk (ext unavailable.2) = [(VolumeTypeCustom, "iso1")].
Proof.
  cbv zeta. split_and!; vm_compute; reflexivity.
Qed.

Lemma not_ready_fails_first_witness :
  (Status Sim.pool = StoragePoolStatusPending
   ∨ b_name Sim.pool ∈ unavailablePools (Sim.unavailableWorld Sim.empty))
  ∧ run (CreateInstanceFromImage Sim.pool (Sim.container "c1") "abc")
        (Sim.unavailableWorld Sim.empty)
    = (Fail (StatusErrorf 503 "Storage pool is unavailable on this server"),
       Sim.unavailableWorld Sim.empty)
  ∧ run (CreateCustomVolume Sim.pool "default" "cv9" "" ∅ ContentTypeFS)
        (Sim.unavailableWorld Sim.empty)
    = (Fail (StatusErrorf 503 "Storage pool is unavailable on this server"),
       Sim.unavailableWorld Sim.empty)
  ∧ run (RefreshCustomVolume Sim.pool "default" "" "cv9" "" ∅ "p2" "cv1" true
           (λ srcProjectName, VolumeDBDelete Sim.pool srcProjectName "cv9" VolumeTypeCustom))
        (Sim.unavailableWorld Sim.empty)
    = (Fail (StatusErrorf 503 "Storage pool is unavailable on this server"),
       Sim.unavailableWorld Sim.empty).
Proof.
  assert (Status Sim.pool = StoragePoolStatusPending
          ∨ b_name Sim.pool ∈ unavailablePools (Sim.unavailableWorld Sim.empty)) as Hnot.
  { right. apply elem_of_singleton. reflexivity. }
  pose proof (not_ready_fails_first (H := Sim.noHeaderHelpers) Sim.pool (Sim.container "c1")
                (Sim.container "c0") "abc" Sim.oneSnapshotArgs "default" "" "cv9" ""
                "p2" "cv1" ∅ ContentTypeFS true false 1024
                (λ volType _, VolumeDBDelete Sim.pool "default" "c1" volType)
                (λ srcProjectName, VolumeDBDelete Sim.pool srcProjectName "cv9" VolumeTypeCustom)
                (λ _ _, VolumeDBDelete Sim.pool "default" "cv9" VolumeTypeCustom)
                (Sim.unavailableWorld Sim.empty) Hnot)
    as (_ & _ & Himage & _ & Hrefresh & _ & Hcustom & _).
  split; [exact Hnot|]. split; [exact Himage|]. split; [exact Hcustom|exact Hrefresh].
Defined.

Lemma SetInstanceQuota_vm_block_witness :
  InstanceTypeToVolumeType (inst_Type (Sim.vm "v1")) = inr VolumeTypeVM
  ∧ db_VolumeDBGet Sim.pool "default" "v1" VolumeTypeVM Sim.vmState
    = (inr (mkStorageVolume "v1" "" ∅ "block"), Sim.vmState)
  ∧ IsVMBlock (GetVolume Sim.pool VolumeTypeVM ContentTypeBlock "v1" ∅) = true
  ∧ (run (SetInstanceQuota Sim.pool (Sim.vm "v1") "10GiB" "") (Sim.world Sim.vmState)).1 = Ok tt
  ∧ (λ ev, match ev.1 with CSetVolumeQuota vol size _ => Some (vol_contentType vol, size)
                      | _ => None end)
      <$> calls (run (SetInstanceQuota Sim.pool (Sim.vm "v1") "10GiB" "")
                   (Sim.world Sim.vmState)).2
    = [None; Some (ContentTypeBlock, "10GiB"); Some (ContentTypeFS, "100MiB")].
Proof.
  split; [reflexivity|]. split; [reflexivity|]. split; [reflexivity|].
  rewrite (SetInstanceQuota_vm_block (H := Sim.noHeaderHelpers) Sim.pool (Sim.vm "v1") "10GiB" "" (Sim.world Sim.vmState)
             VolumeTypeVM (mkStorageVolume "v1" "" ∅ "block") Sim.vmState
             ltac:(reflexivity) ltac:(reflexivity) ltac:(reflexivity)).
  split; reflexivity.
Defined.

(** C2 fails as stated for custom volumes: [DeleteCustomVolume] on a
    volume with three snapshot records succeeds, and removes the records
    and the volumes of the snapshots and of the parent. *)
Lemma custom_volume_with_snapshots_is_deleted :
  let before := Sim.customVolumeState in
  let after := run (DeleteCustomVolume Sim.pool "default" "cv1") (Sim.world before) in
  Sim.recordNames before = ["cv1"; "cv1/a"; "cv1/b"; "cv1/c"]
  ∧ (db_VolumeDBSnapshotsGet Sim.pool "default" "cv1" VolumeTypeCustom before).1
    = inr [mkStorageVolume "cv1/a" "" ∅ "filesystem";
           mkStorageVolume "cv1/b" "" ∅ "filesystem";
           mkStorageVolume "cv1/c" "" ∅ "filesystem"]
  ∧ after.1 = Ok tt
  ∧ omap (λ ev, match ev with
                | (CDeleteVolumeSnapshot vol, None) => Some (vol_name vol)
                | (CDeleteVolume vol, None) => Some (vol_name vol)
                | _ => None
                end) (calls after.2) = ["cv1/a"; "cv1/b"; "cv1/c"; "cv1"]
  ∧ dbDeleted (calls after.2)
    = [("default", "cv1/a", VolumeTypeCustom); ("default", "cv1/b", VolumeTypeCustom);
       ("default", "cv1/c", VolumeTypeCustom); ("default", "cv1", VolumeTypeCustom)]
  ∧ Sim.recordNames (ext after.2) = []
  ∧ Sim.onDisk (ext after.2) = [].
Proof. vm_compute. repeat split; reflexivity. Qed.

Lemma delete_parent_with_snapshots_witness :
  let refused := run (DeleteInstance Sim.pool (Sim.container "c1"))
                     (Sim.world Sim.snapshotsState) in
  let failed := run (DeleteCustomVolume Sim.pool "default" "cv1")
                    (Sim.world Sim.busySnapshotState) in
  refused.1 = Fail (Errorf "Cannot remove an instance volume that has snapshots")
  ∧ Sim.recordNames (ext refused.2) = ["c1"; "c1/s1"; "c1/s2"]
  ∧ Sim.onDisk (ext refused.2) = Sim.onDisk Sim.snapshotsState
  ∧ failed.1 = Fail (Errorf "Snapshot is busy")
  ∧ (("default", "cv1", VolumeTypeCustom) ∉ dbDeleted (calls failed.2))
  ∧ Sim.recordNames (ext failed.2) = ["cv1"; "cv1/b"; "cv1/c"]
  ∧ (VolumeTypeCustom, "cv1") ∈ Sim.onDisk (ext failed.2).
Proof.
  intros refused failed.
  pose proof (proj1 (delete_parent_with_snapshots (H := Sim.noHeaderHelpers))
                Sim.pool (Sim.container "c1") (Sim.world Sim.snapshotsState)
                VolumeTypeContainer
                [mkStorageVolume "c1/s1" "" ∅ "filesystem";
                 mkStorageVolume "c1/s2" "" ∅ "filesystem"]
                Sim.snapshotsState
                ltac:(reflexivity) ltac:(reflexivity) ltac:(reflexivity) ltac:(discriminate))
    as Hinst.
  pose proof (proj2 (delete_parent_with_snapshots (H := Sim.noHeaderHelpers))
                Sim.pool "default" "cv1" (Sim.world Sim.busySnapshotState))
    as Hcustom.
  cbv zeta in Hcustom. fold failed in Hcustom.
  assert (failed.1 = Fail (Errorf "Snapshot is busy")) as Hfailed
    by (vm_compute; reflexivity).
  destruct failed as [r wf] eqn:Hrun. cbn [fst snd] in *. subst r.
  destruct Hcustom as (tr & Htr & Hparent & _).
  change (calls (Sim.world Sim.busySnapshotState) ++ tr) with tr in Htr.
  rewrite Htr. split_and!.
  - subst refused. by rewrite Hinst.
  - subst refused. rewrite Hinst. vm_compute. reflexivity.
  - subst refused. by rewrite Hinst.
  - reflexivity.
  - exact Hparent.
  - clear -Hrun. apply (f_equal snd) in Hrun. cbn [snd] in Hrun. subst wf.
    vm_compute. reflexivity.
  - clear -Hrun. apply (f_equal snd) in Hrun. cbn [snd] in Hrun. subst wf.
    vm_compute. apply list_elem_of_In. by left.
Defined.



Lemma EnsureImage_existing_volume_witness :
  let before := Sim.imageState (inr tt) (inl ErrNotSupported) in
  let after := run (EnsureImage Sim.pool "abc") (Sim.world before) in
  after.1 = Ok tt
  ∧ filter (λ c, bool_decide (c ≠ None))
      ((λ ev, match ev with
              | (CSetVolumeQuota vol size _, o) => Some ("SetVolumeQuota", vol_name vol, o)
              | (CDeleteVolume vol, o) => Some ("DeleteVolume", vol_name vol, o)
              | (CVolumeDBDelete _ name _, o) => Some ("VolumeDBDelete", name, o)
              | (CVolumeDBCreate _ name _ _ _ _ _ _ _ _, o) => Some ("VolumeDBCreate", name, o)
              | (CCreateVolume vol (Some _), o) =>
                  Some ("CreateVolume with filler", vol_name vol, o)
              | _ => None
              end) <$> calls after.2)
    = [Some ("SetVolumeQuota", "abc", Some ErrNotSupported);
       Some ("DeleteVolume", "abc", None);
       Some ("VolumeDBDelete", "abc", None);
       Some ("VolumeDBCreate", "abc", None);
       Some ("CreateVolume with filler", "abc", None)].
Proof.
  intros before after.
  set (imgVol := mkVolume "p1" VolumeTypeImage ContentTypeFS "abc" ∅ ∅ false).
  pose proof (proj1 (EnsureImage_existing_volume (H := Sim.noHeaderHelpers)
                Sim.pool "abc" (Sim.world before) before
                (mkWorld before ∅
                   [(CLock "EnsureImage/p1/abc", None);
                    (CGetImageFromAnyProject "abc", None);
                    (CVolumeDBGet "default" "abc" VolumeTypeImage, None);
                    (CFillVolumeConfig imgVol, None);
                    (CHasVolume imgVol, None)])
                ContentTypeFS (mkStorageVolume "abc" "" ∅ "filesystem") imgVol ""
                ltac:(discriminate) ltac:(vm_compute; discriminate) ltac:(reflexivity)
                ltac:(reflexivity) ltac:(vm_compute; reflexivity) ltac:(reflexivity)))
    as Hrun.
  subst after. rewrite Hrun. clear Hrun.
  vm_compute. split; reflexivity.
Defined.

(** C5: when [CreateVolumeFromCopy] from the cached image volume fails
    with the cannot-be-shrunk error, [CreateInstanceFromImage] goes on
    with the driver's [CreateVolume] and the image-unpack filler, and the
    outcome is that call's; any other copy error is returned and
    [CreateVolume] is not called.  On a driver with optimized images the
    operation succeeds through this fallback. *)
Theorem copy_cannot_be_shrunk_falls_back_to_unpack :
  (∀ (S : Type) (D : Driver S) (C : Cluster S) (Ho : Host S) (H : Helpers)
     (b : lxdBackend) (fingerprint : string) (vol imgVol : Volume) (w : World S),
     let volCopy := NewVolumeCopy vol [] in
     let imgVolCopy := NewVolumeCopy imgVol [] in
     let copy := drv_CreateVolumeFromCopy volCopy imgVolCopy false (ext w) in
     let copied := λ err,
       mkWorld copy.2 (unavailablePools w)
         (calls w ++ [(CCreateVolumeFromCopy volCopy imgVolCopy false, err)]) in
     let unpack := drv_CreateVolume vol (Some (imageFiller fingerprint)) copy.2 in
     run (createVolumeFromImageVolume b fingerprint vol imgVol) w =
       match copy.1 with
       | inr _ => (Ok tt, copied None)
       | inl err =>
           if is_ErrCannotBeShrunk err
           then (match unpack.1 with inl e => Fail e | inr _ => Ok tt end,
                 mkWorld unpack.2 (unavailablePools w)
                   (calls (copied (Some err))
                    ++ [(CCreateVolume vol (Some (imageFiller fingerprint)), outcome unpack.1)]))
           else (Fail err, copied (Some err))
       end)
  ∧ (let shrunk := Sim.imageState (inl (Wrapf "Failed copying" ErrCannotBeShrunk)) (inr tt) in
     let after := run (CreateInstanceFromImage Sim.pool (Sim.container "c1") "abc")
                      (Sim.world shrunk) in
     OptimizedImages drv_Info = true
     ∧ after.1 = Ok tt
     ∧ (VolumeTypeContainer, "c1") ∈ Sim.onDisk (ext after.2)
     ∧ filter (λ ev, is_CCreateVolumeFromCopy ev.1 || is_CCreateVolume ev.1) (calls after.2)
       = [(CCreateVolumeFromCopy
             (GetVolume Sim.pool VolumeTypeContainer ContentTypeFS "c1" {["size" := ""]}, [])
             (GetVolume Sim.pool VolumeTypeImage ContentTypeFS "abc" ∅, []) false,
           Some (Wrapf "Failed copying" ErrCannotBeShrunk));
          (CCreateVolume
             (GetVolume Sim.pool VolumeTypeContainer ContentTypeFS "c1" {["size" := ""]})
             (Some (imageFiller "abc")), None)])
  ∧ (let noSpace := Sim.imageState (inl (Errorf "No space left")) (inr tt) in
     let after := run (CreateInstanceFromImage Sim.pool (Sim.container "c1") "abc")
                      (Sim.world noSpace) in
     after.1 = Fail (Errorf "No space left")
     ∧ Sim.onDisk (ext after.2) = Sim.onDisk noSpace
     ∧ Sim.records (ext after.2) = Sim.records noSpace).
Proof.
  split; [|split].
  - intros. apply createVolumeFromImageVolume_cases.
  - vm_compute. repeat split; try reflexivity. apply list_elem_of_In. right. by left.
  - by vm_compute.
Qed.



(** C9: a run of [RestoreInstanceSnapshot] that returns without error
    after the driver's first [RestoreVolume] asked for snapshots to be
    deleted and the second one succeeded has not reached
    [revert.Success()]: the revert chain runs, and the last call of the
    run is the hook's update of the DB record back to the description
    and config read at the start, after the update to the snapshot's.
    A run whose first [RestoreVolume] succeeded keeps the snapshot's
    values.  On the container [c1] restored to its snapshot [a] the call
    returns without error and the record has its size of before the
    call, where a restore that needs no retry leaves the snapshot's. *)
Theorem retry_success_rolls_back_record_update :
  (∀ (S : Type) (D : Driver S) (C : Cluster S) (Ho : Host S) (H : Helpers)
     (b : lxdBackend) (inst src : Instance) (w : World S),
     match run (RestoreInstanceSnapshot b inst src) w with
     | (Ok _, w') =>
         ∃ tr volType dbVol s1 srcDBVol s2,
           calls w' = calls w ++ tr
           ∧ InstanceTypeToVolumeType (inst_Type inst) = inr volType
           ∧ db_VolumeDBGet b (inst_Project inst) (inst_Name inst) volType (ext w)
             = (inr dbVol, s1)
           ∧ db_VolumeDBGet b (inst_Project src) (inst_Name src) volType s1
             = (inr srcDBVol, s2)
           ∧ let changed :=
               bool_decide
                 (size (detectChangedConfig (sv_Config dbVol) (sv_Config srcDBVol)).1 ≠ 0%nat)
               || bool_decide (sv_Description dbVol ≠ sv_Description srcDBVol) in
             let toSnapshot := λ volDBType,
               (CUpdateStoragePoolVolume (inst_Project inst) (inst_Name inst) volDBType
                  (b_id b) (sv_Description srcDBVol) (sv_Config srcDBVol), None) in
             let back := λ volDBType o,
               (CUpdateStoragePoolVolume (inst_Project inst) (inst_Name inst) volDBType
                  (b_id b) (sv_Description dbVol) (sv_Config dbVol), o) in
             match restores tr with
             | [(_, None)] =>
                 if changed then ∃ volDBType, updates tr = [toSnapshot volDBType]
                 else updates tr = []
             | [(_, Some err); (_, None)] =>
                 is_Some (as_ErrDeleteSnapshots err)
                 ∧ if changed
                   then ∃ volDBType o,
                          updates tr = [toSnapshot volDBType; back volDBType o]
                          ∧ last tr = Some (back volDBType o)
                   else updates tr = []
             | _ => False
             end
     | _ => True
     end)
  ∧ (let restore := RestoreInstanceSnapshot Sim.pool (Sim.container "c1")
                      (Sim.snapshotInstance (Sim.container "c1") "c1/a") in
     let retried := run restore (Sim.world Sim.containerState) in
     let direct := run restore (Sim.world (Sim.set_restoreReplies [] Sim.containerState)) in
     Sim.recordSizes Sim.containerState
     = [("c1", Some "1GiB"); ("c1/a", Some "2GiB"); ("c1/b", None); ("c1/c", None)]
     ∧ retried.1 = Ok tt
     ∧ (restores (calls retried.2)).*2
       = [Some (ErrDeleteSnapshots ["b"; "c"]); None]
     ∧ Sim.recordSizes (ext retried.2) = [("c1", Some "1GiB"); ("c1/a", Some "2GiB")]
     ∧ direct.1 = Ok tt
     ∧ (restores (calls direct.2)).*2 = [None]
     ∧ Sim.recordSizes (ext direct.2)
       = [("c1", Some "2GiB"); ("c1/a", Some "2GiB"); ("c1/b", None); ("c1/c", None)]).
Proof.
  split.
  - intros. apply RestoreInstanceSnapshot_updates.
  - vm_compute. repeat split; reflexivity.
Qed.
